(** * SimpleExcelWriter: a shallow embedding of [dataGenerator/excel_generator.py]

    The writer turns in-memory sheets into the parts of an .xlsx package,
    stages them in a directory, archives the directory and removes it.
    This file embeds the class [SimpleExcelWriter] (lines 13-134 of the
    source) and proves properties of the documents and of the archive it
    produces. *)

From Stdlib Require Import ZArith NArith Ascii String.
From Stdlib Require Import DecimalString DecimalPos DecimalZ.
From stdpp Require Import base option list gmap.

Local Open Scope Z_scope.
Set Warnings "-register-all".

(** ** Python strings

    A Python [str] is a sequence of Unicode code points.  Code points are
    kept as numbers, so that [chr] is total on its legal range and text
    outside ASCII is a value like any other. *)

Abbreviation pystr := (list N).

(** Code points of an ASCII literal. *)
Definition u (s : string) : pystr :=
  N_of_ascii <$> list_ascii_of_string s.

Definition quote : N := 34%N.
Definition backtick : N := 96%N.

(** The literals of the source are full of double quotes.  They are written
    here with a backtick wherever the source has a double quote; no literal
    of the source contains a backtick. *)
Definition lit (s : string) : pystr :=
  (fun c => if (c =? backtick)%N then quote else c) <$> u s.

(** ** Exceptions and results *)

Inductive exn :=
  | ValueError
  | FileExistsError
  | FileNotFoundError
  | NotADirectoryError
  | IsADirectoryError
  | UnicodeEncodeError.

Inductive result (A : Type) :=
  | Ok (a : A)
  | Err (e : exn).
Arguments Ok {A} a.
Arguments Err {A} e.

#[global] Instance result_ret : MRet result := fun _ a => Ok a.
#[global] Instance result_bind : MBind result := fun _ _ k r =>
  match r with
  | Ok a => k a
  | Err e => Err e
  end.

(** [for x in xs: s = body(s, x)], stopping at the first exception. *)
Fixpoint for_in {A S} (xs : list A) (body : S → A → result S) (s : S)
  : result S :=
  match xs with
  | [] => Ok s
  | x :: xs' => s' ← body s x; for_in xs' body s'
  end.

(** [enumerate(xs)], counting from [i]. *)
Fixpoint enumerate_from {A} (i : Z) (xs : list A) : list (Z * A) :=
  match xs with
  | [] => []
  | x :: xs' => (i, x) :: enumerate_from (i + 1) xs'
  end.

Definition enumerate {A} (xs : list A) : list (Z * A) := enumerate_from 0 xs.

(** ** Python values

    A float is only ever formatted by the writer, so a float is represented
    by the text Python prints for it; that text is drawn from the
    alphabet of [repr(float)]: digits, sign, point, exponent mark and the
    letters of [inf] and [nan]. *)

Definition float_alphabet : pystr := u "0123456789+-.einfa".

Definition float_char (c : N) : bool := bool_decide (c ∈ float_alphabet).

Record pyfloat := mk_float {
  float_str : pystr;
  float_str_ok : forallb float_char float_str = true
}.

Inductive pyval :=
  | PStr (s : pystr)
  | PInt (z : Z)
  | PFloat (x : pyfloat)
  | PBool (b : bool)
  | PNone.

Inductive pyclass := Cstr | Cint | Cfloat | Cbool | CNoneType.

Definition type_of (v : pyval) : pyclass :=
  match v with
  | PStr _ => Cstr
  | PInt _ => Cint
  | PFloat _ => Cfloat
  | PBool _ => Cbool
  | PNone => CNoneType
  end.

(** [issubclass]: every class is its own subclass, and [bool] is a subclass
    of [int]. *)
Definition issubclass (c d : pyclass) : bool :=
  match c, d with
  | Cstr, Cstr | Cint, Cint | Cfloat, Cfloat | Cbool, Cbool
  | CNoneType, CNoneType => true
  | Cbool, Cint => true
  | _, _ => false
  end.

(** [isinstance(v, (d1, ..., dn))]. *)
Definition isinstance (v : pyval) (ds : list pyclass) : bool :=
  existsb (issubclass (type_of v)) ds.

(** [str(z)] for an int: decimal digits, with a minus sign when negative. *)
Definition int_str (z : Z) : pystr :=
  u (NilZero.string_of_int (Z.to_int z)).

(** [str(v)]. *)
Definition py_str (v : pyval) : pystr :=
  match v with
  | PStr s => s
  | PInt z => int_str z
  | PFloat x => float_str x
  | PBool true => u "True"
  | PBool false => u "False"
  | PNone => u "None"
  end.

(** [f'{v}']: with an empty format specification each of these types
    formats as [str(v)]. *)
Definition fmt (v : pyval) : pystr := py_str v.

(** [chr(i)]. *)
Definition chr (i : Z) : result pystr :=
  if (0 <=? i) && (i <? 1114112) then Ok [Z.to_N i] else Err ValueError.

(** [s.replace(old, new)] for a pattern [old] of one character, the only
    kind the writer uses. *)
Definition replace (old : N) (new : pystr) (s : pystr) : pystr :=
  c ← s; if (c =? old)%N then new else [c].

(** ** The file system

    The tree below the working directory, keyed by normalized paths (lists
    of component names).  Path strings are resolved lexically, the way
    [os.path.normpath] reads them: split at [/], empty and [.] components
    dropped, [..] cancelling the component before it.  The working
    directory is the root of the tree, and there are no symbolic links.  A
    regular file holds text, or the entries of a ZIP archive. *)

Abbreviation path := (list pystr).

Inductive data :=
  | Text (s : pystr)
  | Zip (entries : list (pystr * data)).

Inductive node :=
  | Dir
  | File (d : data).

Abbreviation fs := (gmap path node).

Definition slash : N := 47%N.

(** [s.split('/')]. *)
Fixpoint split_slash (s : pystr) : list pystr :=
  match s with
  | [] => [[]]
  | c :: s' =>
      if (c =? slash)%N then [] :: split_slash s'
      else match split_slash s' with
           | [] => [[c]]
           | w :: ws => (c :: w) :: ws
           end
  end.

Definition norm_step (stack : path) (c : pystr) : path :=
  if bool_decide (c = [] ∨ c = u ".") then stack
  else if bool_decide (c = u "..") then removelast stack
  else stack ++ [c].

Definition parse (s : pystr) : path := foldl norm_step [] (split_slash s).

(** [os.path.join] of the components of a relative path. *)
Fixpoint join_slash (p : path) : pystr :=
  match p with
  | [] => []
  | [c] => c
  | c :: p' => c ++ slash :: join_slash p'
  end.

(** Operations run on the file system and may raise; the file system
    reached is kept in both cases. *)
Definition io (A : Type) : Type := fs → fs * result A.

#[global] Instance io_ret : MRet io := fun _ a σ => (σ, Ok a).
#[global] Instance io_bind : MBind io := fun _ _ k m σ =>
  match m σ with
  | (σ', Ok a) => k a σ'
  | (σ', Err e) => (σ', Err e)
  end.

Definition raise {A} (e : exn) : io A := fun σ => (σ, Err e).

Definition get_fs : io fs := fun σ => (σ, Ok σ).

Definition lift {A} (r : result A) : io A := fun σ => (σ, r).

(** A [for] loop whose body runs on the file system. *)
Fixpoint io_for {A} (xs : list A) (body : A → io unit) : io unit :=
  match xs with
  | [] => mret ()
  | x :: xs' => body x;; io_for xs' body
  end.

(** Creates the missing directories of [done ++ todo], outermost first. *)
Fixpoint mkdirs (done : path) (todo : list pystr) : io unit :=
  match todo with
  | [] => mret ()
  | c :: todo' =>
      let p := done ++ [c] in
      fun σ =>
        match σ !! p with
        | Some Dir => mkdirs p todo' σ
        | Some (File _) =>
            (σ, Err (match todo' with
                     | [] => FileExistsError
                     | _ => NotADirectoryError
                     end))
        | None => mkdirs p todo' (<[p := Dir]> σ)
        end
  end.

(** [os.makedirs(name, exist_ok=True)]. *)
Definition makedirs (name : pystr) : io unit :=
  match name with
  | [] => raise FileNotFoundError
  | _ => mkdirs [] (parse name)
  end.

(** Opening [name] for writing: the checks of [open(name, 'w')]; on success
    the file exists and holds [d]. *)
Definition create (name : pystr) (d : data) : io path :=
  match name with
  | [] => raise FileNotFoundError
  | _ =>
      let p := parse name in
      fun σ =>
        match p with
        | [] => (σ, Err IsADirectoryError)
        | _ =>
            let parent := removelast p in
            let parent_node :=
              match parent with [] => Some Dir | _ => σ !! parent end in
            match parent_node with
            | None => (σ, Err FileNotFoundError)
            | Some (File _) => (σ, Err NotADirectoryError)
            | Some Dir =>
                match σ !! p with
                | Some Dir => (σ, Err IsADirectoryError)
                | _ => (<[p := File d]> σ, Ok p)
                end
            end
        end
  end.

(** A lone surrogate has no encoding. *)
Definition surrogate (c : N) : bool := ((55296 <=? c) && (c <=? 57343))%N.

(** [with open(name, 'w') as f: f.write(content)].  The file is created
    (or truncated) first; the text is then encoded, which fails on a
    surrogate and leaves the file empty. *)
Definition write_text (name : pystr) (content : pystr) : io unit :=
  p ← create name (Text []);
  if existsb surrogate content then raise UnicodeEncodeError
  else fun σ => (<[p := File (Text content)]> σ, Ok ()).

(** The regular files below [top], as paths relative to [top]: what the
    loops over [os.walk(top)] and [os.path.relpath(_, top)] enumerate in a
    tree where every entry lies in a directory.  The order is the order in
    which the directory entries are listed, which the platform leaves
    open. *)
Definition walk (top : path) (σ : fs) : list (path * data) :=
  omap (fun '(p, n) =>
          match n with
          | File d =>
              if bool_decide (top `prefix_of` p)
              then Some (drop (length top) p, d) else None
          | Dir => None
          end)
       (map_to_list σ).

(** [zipf.write(file_path, arc_path)] on the archive opened at [zf]. *)
Definition zip_write (zf : path) (arc_path : pystr) (d : data) : io unit :=
  fun σ =>
    match σ !! zf with
    | Some (File (Zip es)) =>
        (<[zf := File (Zip (es ++ [(arc_path, d)]))]> σ, Ok ())
    | _ => (σ, Err ValueError)
    end.

(** [shutil.rmtree(name)]. *)
Definition rmtree (name : pystr) : io unit :=
  let top := parse name in
  fun σ =>
    match σ !! top with
    | Some Dir =>
        (filter (fun '(p, _) => ¬ top `prefix_of` p) σ, Ok ())
    | Some (File _) => (σ, Err NotADirectoryError)
    | None => (σ, Err FileNotFoundError)
    end.

(** ** The writer *)

Record sheet := mk_sheet {
  name : pyval;
  headers : list pyval;
  rows : list (list pyval)
}.

(** An instance of [SimpleExcelWriter]. *)
Record writer := mk_writer {
  filename : pystr;
  sheets : list sheet
}.

Definition __init__ (filename : pystr) : writer :=
  {| filename := filename; sheets := [] |}.

Definition add_sheet (self : writer) (name : pyval) (headers : list pyval)
    (rows : list (list pyval)) : writer :=
  {| filename := filename self;
     sheets := sheets self ++ [mk_sheet name headers rows] |}.

Definition _escape_xml (text : pyval) : pystr :=
  replace 39 (lit "&apos;")
    (replace 34 (lit "&quot;")
      (replace 62 (lit "&gt;")
        (replace 60 (lit "&lt;")
          (replace 38 (lit "&amp;") (py_str text))))).

Definition content_types_xml : pystr :=
  lit "<?xml version=`1.0` encoding=`UTF-8` standalone=`yes`?>
<Types xmlns=`http://schemas.openxmlformats.org/package/2006/content-types`>
<Default Extension=`rels` ContentType=`application/vnd.openxmlformats-package.relationships+xml`/>
<Default Extension=`xml` ContentType=`application/xml`/>
<Override PartName=`/xl/workbook.xml` ContentType=`application/vnd.openxmlformats-officedocument.spreadsheetml.sheet.main+xml`/>
<Override PartName=`/xl/worksheets/sheet1.xml` ContentType=`application/vnd.openxmlformats-officedocument.spreadsheetml.worksheet+xml`/>
</Types>".

Definition _create_content_types (self : writer) (temp_dir : pystr)
  : io unit :=
  let content := content_types_xml in
  write_text (temp_dir ++ lit "/[Content_Types].xml") content.

Definition main_rels_xml : pystr :=
  lit "<?xml version=`1.0` encoding=`UTF-8` standalone=`yes`?>
<Relationships xmlns=`http://schemas.openxmlformats.org/package/2006/relationships`>
<Relationship Id=`rId1` Type=`http://schemas.openxmlformats.org/officeDocument/2006/relationships/officeDocument` Target=`xl/workbook.xml`/>
</Relationships>".

Definition _create_main_rels (self : writer) (temp_dir : pystr) : io unit :=
  let content := main_rels_xml in
  write_text (temp_dir ++ lit "/_rels/.rels") content.

Definition workbook_xml : pystr :=
  lit "<?xml version=`1.0` encoding=`UTF-8` standalone=`yes`?>
<workbook xmlns=`http://schemas.openxmlformats.org/spreadsheetml/2006/main` xmlns:r=`http://schemas.openxmlformats.org/officeDocument/2006/relationships`>
<sheets>
<sheet name=`Sheet1` sheetId=`1` r:id=`rId1`/>
</sheets>
</workbook>".

Definition _create_workbook (self : writer) (temp_dir : pystr) : io unit :=
  let content := workbook_xml in
  write_text (temp_dir ++ lit "/xl/workbook.xml") content.

Definition workbook_rels_xml : pystr :=
  lit "<?xml version=`1.0` encoding=`UTF-8` standalone=`yes`?>
<Relationships xmlns=`http://schemas.openxmlformats.org/package/2006/relationships`>
<Relationship Id=`rId1` Type=`http://schemas.openxmlformats.org/officeDocument/2006/relationships/worksheet` Target=`worksheets/sheet1.xml`/>
</Relationships>".

Definition _create_workbook_rels (self : writer) (temp_dir : pystr)
  : io unit :=
  let content := workbook_rels_xml in
  write_text (temp_dir ++ lit "/xl/_rels/workbook.xml.rels") content.

(** The body of the loop over the headers (lines 110-111). *)
Definition header_cell (self : writer) (content : pystr)
    (item : Z * pyval) : result pystr :=
  let '(col_idx, header) := item in
  col_letter ← chr (65 + col_idx);
  mret (content ++ lit "<c r=`" ++ col_letter
          ++ lit "1` t=`inlineStr`><is><t>"
          ++ _escape_xml (PStr (py_str header)) ++ lit "</t></is></c>").

(** The body of the loop over the cells of a data row (lines 119-123). *)
Definition data_cell (self : writer) (row_num : Z) (content : pystr)
    (item : Z * pyval) : result pystr :=
  let '(col_idx, cell_value) := item in
  col_letter ← chr (65 + col_idx);
  if isinstance cell_value [Cint; Cfloat] then
    mret (content ++ lit "<c r=`" ++ col_letter ++ fmt (PInt row_num)
            ++ lit "`><v>" ++ fmt cell_value ++ lit "</v></c>")
  else
    mret (content ++ lit "<c r=`" ++ col_letter ++ fmt (PInt row_num)
            ++ lit "` t=`inlineStr`><is><t>"
            ++ _escape_xml (PStr (py_str cell_value))
            ++ lit "</t></is></c>").

(** The body of the loop over the data rows (lines 116-124). *)
Definition data_row (self : writer) (content : pystr)
    (item : Z * list pyval) : result pystr :=
  let '(row_idx, row) := item in
  let row_num := row_idx + 2 in
  let content := content ++ lit "<row r=`" ++ fmt (PInt row_num) ++ lit "`>" in
  content ← for_in (enumerate row) (data_cell self row_num) content;
  mret (content ++ lit "</row>").

Definition worksheet_head : pystr :=
  lit "<?xml version=`1.0` encoding=`UTF-8` standalone=`yes`?>
<worksheet xmlns=`http://schemas.openxmlformats.org/spreadsheetml/2006/main`>
<sheetData>".

Definition worksheet_tail : pystr :=
  lit "</sheetData>
</worksheet>".

(** The document [_create_worksheet] builds (lines 103-127). *)
Definition worksheet_xml (self : writer) (sheet_data : sheet)
  : result pystr :=
  let content := worksheet_head in
  let content := content ++ lit "<row r=`1`>" in
  content ← for_in (enumerate (headers sheet_data)) (header_cell self) content;
  let content := content ++ lit "</row>" in
  content ← for_in (enumerate (rows sheet_data)) (data_row self) content;
  let content := content ++ worksheet_tail in
  mret content.

Definition _create_worksheet (self : writer) (temp_dir : pystr)
    (sheet_num : Z) (sheet_data : sheet) : io unit :=
  content ← lift (worksheet_xml self sheet_data);
  write_text (temp_dir ++ lit "/xl/worksheets/sheet" ++ fmt (PInt sheet_num)
                ++ lit ".xml") content.

Definition save (self : writer) : io unit :=
  let temp_dir := filename self ++ lit "_temp" in
  makedirs temp_dir;;
  makedirs (temp_dir ++ lit "/_rels");;
  makedirs (temp_dir ++ lit "/xl");;
  makedirs (temp_dir ++ lit "/xl/_rels");;
  makedirs (temp_dir ++ lit "/xl/worksheets");;
  _create_content_types self temp_dir;;
  _create_main_rels self temp_dir;;
  _create_workbook self temp_dir;;
  _create_workbook_rels self temp_dir;;
  io_for (enumerate (sheets self))
    (fun '(i, sheet) => _create_worksheet self temp_dir (i + 1) sheet);;
  zipf ← create (filename self) (Zip []);
  σ ← get_fs;
  io_for (walk (parse temp_dir) σ)
    (fun '(rel, d) => zip_write zipf (join_slash rel) d);;
  rmtree temp_dir.

(** ** Reading the documents back

    The definitions below are not part of the writer: they state what a
    consumer of the documents sees. *)

(** The replacement text of one character under [_escape_xml]. *)
Definition esc_char (c : N) : pystr :=
  if (c =? 38)%N then lit "&amp;"
  else if (c =? 60)%N then lit "&lt;"
  else if (c =? 62)%N then lit "&gt;"
  else if (c =? 34)%N then lit "&quot;"
  else if (c =? 39)%N then lit "&apos;"
  else [c].

Fixpoint starts_with (pat s : pystr) : bool :=
  match pat, s with
  | [], _ => true
  | _ :: _, [] => false
  | p :: pat', c :: s' => (c =? p)%N && starts_with pat' s'
  end.

(** The predefined entity whose name starts [s] (just after an ampersand):
    the character it stands for and the length of its name. *)
Definition entity_at (s : pystr) : option (N * nat) :=
  if starts_with (u "amp;") s then Some (38%N, 4%nat)
  else if starts_with (u "lt;") s then Some (60%N, 3%nat)
  else if starts_with (u "gt;") s then Some (62%N, 3%nat)
  else if starts_with (u "quot;") s then Some (34%N, 5%nat)
  else if starts_with (u "apos;") s then Some (39%N, 5%nat)
  else None.

(** Replaces the references to the five predefined entities in one pass
    from the left, as an XML parser reads character data; [skip] counts the
    characters of an entity name still to be passed over. *)
Fixpoint unescape_from (skip : nat) (s : pystr) : pystr :=
  match s with
  | [] => []
  | c :: s' =>
      match skip with
      | S k => unescape_from k s'
      | O =>
          if (c =? 38)%N then
            match entity_at s' with
            | Some (d, n) => d :: unescape_from n s'
            | None => c :: unescape_from 0 s'
            end
          else c :: unescape_from 0 s'
      end
  end.

Definition xml_unescape (s : pystr) : pystr := unescape_from 0 s.

(** Number of places of [s] at which [pat] starts. *)
Fixpoint occurs (pat s : pystr) : nat :=
  match s with
  | [] => 0%nat
  | c :: s' => ((if starts_with pat (c :: s') then 1 else 0) + occurs pat s')%nat
  end.

(** The markup of a cell and of a row, as the format lays them out. *)
Definition text_cell (ref text : pystr) : pystr :=
  lit "<c r=`" ++ ref ++ lit "` t=`inlineStr`><is><t>"
    ++ (text ≫= esc_char) ++ lit "</t></is></c>".

Definition num_cell (ref literal : pystr) : pystr :=
  lit "<c r=`" ++ ref ++ lit "`><v>" ++ literal ++ lit "</v></c>".

Definition cell_of (ref : pystr) (v : pyval) : pystr :=
  match v with
  | PInt _ | PFloat _ | PBool _ => num_cell ref (py_str v)
  | PStr _ | PNone => text_cell ref (py_str v)
  end.

Definition row_elem (n : Z) (cells : list pystr) : pystr :=
  lit "<row r=`" ++ int_str n ++ lit "`>" ++ concat cells ++ lit "</row>".

(** The reference of the cell in column [j] (from 0) of row [n]. *)
Definition cell_ref (j : nat) (n : Z) : pystr :=
  N.of_nat (65 + j) :: int_str n.

(** The rows of a sheet laid out one after the other: the header row, then
    data row [i] (from 0) as row [i + 2]. *)
Definition header_cells (hs : list pyval) : list pystr :=
  imap (λ j h, text_cell (cell_ref j 1) (py_str h)) hs.

Definition row_cells (n : Z) (row : list pyval) : list pystr :=
  imap (λ j v, cell_of (cell_ref j n) v) row.

Definition sheet_rows (sh : sheet) : list pystr :=
  row_elem 1 (header_cells (headers sh))
    :: imap (λ i row, row_elem (Z.of_nat i + 2) (row_cells (Z.of_nat i + 2) row))
         (rows sh).

Definition worksheet_doc (sh : sheet) : pystr :=
  worksheet_head ++ concat (sheet_rows sh) ++ worksheet_tail.

(** The widest row [chr(65 + col_idx)] can letter: [0x110000 - 65] cells. *)
Definition max_width : Z := 1114047.

Definition fits {A} (l : list A) : bool := Z.of_nat (length l) <=? max_width.

(** Opening tags, counted by their first characters. *)
Abbreviation row_tag := (60%N :: u "row ").
Abbreviation c_tag := (60%N :: u "c ").
Abbreviation v_tag := (60%N :: u "v>").
Abbreviation t_attr := (32%N :: u "t=").

(** The float [3.14]. *)
Definition float_3_14 : pyfloat := mk_float (u "3.14") eq_refl.

(** ** The package

    Where [save] stages the parts, and what it stages. *)

(** The staging directory and the archive of a writer. *)
Definition staging (self : writer) : path := parse (filename self ++ lit "_temp").
Definition target (self : writer) : path := parse (filename self).

(** A file lies under [top] when its path extends [top]. *)
Definition no_file_under (top : path) (σ : fs) : Prop :=
  ∀ p d, top `prefix_of` p → σ !! p ≠ Some (File d).

Definition no_entry_under (top : path) (σ : fs) : Prop :=
  ∀ p, top `prefix_of` p → σ !! p = None.

(** The four descriptor parts, by path below the staging directory. *)
Definition descriptor_parts : list (path * pystr) :=
  [ ([lit "[Content_Types].xml"], content_types_xml);
    ([u "_rels"; u ".rels"], main_rels_xml);
    ([u "xl"; u "workbook.xml"], workbook_xml);
    ([u "xl"; u "_rels"; u "workbook.xml.rels"], workbook_rels_xml) ].

Definition sheet_part_path (k : Z) : path :=
  [u "xl"; u "worksheets"; lit "sheet" ++ int_str k ++ lit ".xml"].

(** The worksheet part of the [k]-th document, [k] counting from [i]. *)
Definition sheet_parts (i : Z) (docs : list pystr) : list (path * pystr) :=
  zip (sheet_part_path <$> seqZ i (Z.of_nat (length docs))) docs.

Definition parts (docs : list pystr) : list (path * pystr) :=
  descriptor_parts ++ sheet_parts 1 docs.

Definition stage (top : path) (σ : fs) (ps : list (path * pystr)) : fs :=
  foldl (λ σ '(rel, c), <[top ++ rel := File (Text c)]> σ) σ ps.

(** The archive entry of a staged file. *)
Definition entry_of (f : path * data) : pystr * data :=
  let '(rel, d) := f in (join_slash rel, d).

Definition descriptor_names : list pystr :=
  [ lit "[Content_Types].xml"; lit "_rels/.rels"; lit "xl/workbook.xml";
    lit "xl/_rels/workbook.xml.rels" ].

Definition sheet_name (k : Z) : pystr :=
  lit "xl/worksheets/sheet" ++ int_str k ++ lit ".xml".

(** A component that names an entry: not empty, not [.], not [..]. *)
Definition plain (c : pystr) : Prop := c ≠ [] ∧ c ≠ u "." ∧ c ≠ u "..".

(** The entries of the archive [save] leaves at the target, if any. *)
Definition archive_of (self : writer) (σ : fs) : option (list (pystr * data)) :=
  match σ !! target self with
  | Some (File (Zip es)) => Some es
  | _ => None
  end.

(** Staged files as [walk] reports them. *)
Definition as_file (part : path * pystr) : path * data :=
  let '(rel, c) := part in (rel, Text c).

(** ** Sample workbooks *)

(** One sheet named Data, headers A and B, rows [1, x] and [2, y]. *)
Definition data_sheet_writer (filename : pystr) : writer :=
  add_sheet (__init__ filename) (PStr (u "Data"))
    [PStr (u "A"); PStr (u "B")]
    [[PInt 1; PStr (u "x")]; [PInt 2; PStr (u "y")]].

(** A staging directory left over from an earlier run, holding one file. *)
Definition stale_staging : fs :=
  <[ [u "out.xlsx_temp"; u "old.txt"] := File (Text (u "stale")) ]>
    (<[ [u "out.xlsx_temp"] := Dir ]> ∅).

(** A sheet whose only header is a lone surrogate. *)
Definition surrogate_writer : writer :=
  add_sheet (__init__ (u "out.xlsx")) (PStr (u "Data")) [PStr [55296%N]] [].

(** A working directory in which the target name is taken by a directory. *)
Definition target_is_dir : fs := <[ [u "report"] := Dir ]> ∅.

(** The directories [save] creates, relative to the staging directory, and
    a file system in which they exist and are the only directories under
    the staging path. *)
Definition dir_rels : list path :=
  [ []; [u "_rels"]; [u "xl"]; [u "xl"; u "_rels"]; [u "xl"; u "worksheets"] ].

Definition ready (top : path) (σ : fs) : Prop :=
  (∀ rel, rel ∈ dir_rels → σ !! (top ++ rel) = Some Dir)
  ∧ (∀ rel, σ !! (top ++ rel) = Some Dir → rel ∈ dir_rels).

(** Text that can be written to a file. *)
Definition encodable (s : pystr) : Prop := existsb surrogate s = false.

(** ** Rows the builder cannot letter *)

(** A row with more cells than [chr(65 + col_idx)] has letters for. *)
Definition too_wide {A} (row : list A) : Prop := max_width < Z.of_nat (length row).

#[global] Instance too_wide_dec {A} (row : list A) : Decision (too_wide row) :=
  Z_lt_dec _ _.

(** ** What an operation leaves alone *)

(** Every run of [m], whether it returns or raises, relates the file
    system it starts from to the one it ends in by [R]. *)
Definition keeps {A : Type} (R : fs → fs → Prop) (m : io A) : Prop :=
  ∀ σ σ' r, m σ = (σ', r) → R σ σ'.

(** Outside the tree under [top] and the file [tgt], an entry is as it was,
    or is a directory on the way to [top] that did not exist before. *)
Definition untouched_outside (top tgt : path) (σ σ' : fs) : Prop :=
  ∀ q, ¬ top `prefix_of` q → q ≠ tgt →
    σ' !! q = σ !! q
    ∨ (σ !! q = None ∧ σ' !! q = Some Dir ∧ q `prefix_of` top ∧ q ≠ []).

(** ** Data that can be written *)




(** ** The archive of a workbook *)

Definition descriptor_entries : list (pystr * data) :=
  [ (lit "[Content_Types].xml", Text content_types_xml);
    (lit "_rels/.rels", Text main_rels_xml);
    (lit "xl/workbook.xml", Text workbook_xml);
    (lit "xl/_rels/workbook.xml.rels", Text workbook_rels_xml) ].

(** The worksheet entries of sheets numbered from [i]. *)
Definition sheet_entries (i : Z) (shs : list sheet) : list (pystr * data) :=
  imap (λ k sh, (sheet_name (i + Z.of_nat k), Text (worksheet_doc sh))) shs.

Definition expected_entries (self : writer) : list (pystr * data) :=
  descriptor_entries ++ sheet_entries 1 (sheets self).

(** [os.path.basename]: what follows the last slash. *)
Definition basename (s : pystr) : pystr := default [] (last (split_slash s)).

(** An entry that stays a directory. *)
Definition stays_dir (q : path) (σ σ' : fs) : Prop :=
  σ !! q = Some Dir → σ' !! q = Some Dir.

(** ** Markup of a worksheet *)

(** The tags of a cell: [c], [is] and [t], or [c] and [v], opened and
    closed. *)
Definition cell_tags (v : pyval) : nat :=
  if isinstance v [Cint; Cfloat] then 4%nat else 6%nat.

(** The tags of a sheet: five in the head and tail, two per row, six per
    header and [cell_tags] per cell. *)
Definition sheet_tags (sh : sheet) : nat :=
  (5 + (2 + 6 * length (headers sh))
   + sum_list ((λ row, 2 + sum_list (cell_tags <$> row)) <$> rows sh))%nat.

(** ** The sample generator

    [generate_sample_excel_files] (lines 136-200) draws random rows and
    saves three workbooks.  The random module and the float arithmetic of
    the runtime are taken as they are used: as operations on a generator
    state, which the model threads through the draws in program order and
    returns at the end.  The progress messages go to standard output, which
    is not part of the modelled state. *)



































(** * Properties *)

(** ** Escaping *)

Lemma replace_app old new s t :
  replace old new (s ++ t) = replace old new s ++ replace old new t.
Proof. unfold replace. apply bind_app. Qed.

Lemma escape_one c :
  replace 39 (lit "&apos;")
    (replace 34 (lit "&quot;")
      (replace 62 (lit "&gt;")
        (replace 60 (lit "&lt;")
          (replace 38 (lit "&amp;") [c])))) = esc_char c.
Proof.
  unfold esc_char.
  destruct (N.eqb_spec c 38) as [->|H38]; [reflexivity|].
  destruct (N.eqb_spec c 60) as [->|H60]; [reflexivity|].
  destruct (N.eqb_spec c 62) as [->|H62]; [reflexivity|].
  destruct (N.eqb_spec c 34) as [->|H34]; [reflexivity|].
  destruct (N.eqb_spec c 39) as [->|H39]; [reflexivity|].
  unfold replace; cbn [mbind list_bind app].
  repeat (match goal with
          | |- context [(c =? ?k)%N] =>
              destruct (N.eqb_spec c k); [congruence|]
          end; cbn [mbind list_bind app]).
  reflexivity.
Qed.

Lemma _escape_xml_chars s : _escape_xml (PStr s) = s ≫= esc_char.
Proof.
  unfold _escape_xml; cbn [py_str].
  induction s as [|c s IH]; [reflexivity|].
  change (c :: s) with ([c] ++ s).
  rewrite !replace_app, IH, escape_one, bind_app.
  f_equal. cbn [mbind list_bind]. by rewrite app_nil_r.
Qed.

Lemma unescape_esc_char c rest :
  unescape_from 0 (esc_char c ++ rest) = c :: unescape_from 0 rest.
Proof.
  unfold esc_char.
  destruct (N.eqb_spec c 38) as [->|H38]; [reflexivity|].
  destruct (N.eqb_spec c 60) as [->|H60]; [reflexivity|].
  destruct (N.eqb_spec c 62) as [->|H62]; [reflexivity|].
  destruct (N.eqb_spec c 34) as [->|H34]; [reflexivity|].
  destruct (N.eqb_spec c 39) as [->|H39]; [reflexivity|].
  cbn [app unescape_from].
  destruct (N.eqb_spec c 38); [congruence|reflexivity].
Qed.

Lemma unescape_escape s : xml_unescape (s ≫= esc_char) = s.
Proof.
  unfold xml_unescape.
  induction s as [|c s IH]; [reflexivity|].
  cbn [mbind list_bind]. 
  change (list_bind _ _ esc_char s) with (s ≫= esc_char).
  rewrite unescape_esc_char. by rewrite IH.
Qed.

(** ** The characters of formatted numbers *)

Lemma u_inj s t : u s = u t → s = t.
Proof.
  unfold u. intros H.
  rewrite <- (string_of_list_ascii_of_string s).
  rewrite <- (string_of_list_ascii_of_string t).
  f_equal. revert H.
  generalize (list_ascii_of_string s) (list_ascii_of_string t).
  intros l; induction l as [|a l IH]; intros [|b l']; cbn; try congruence.
  intros [= Hab Hl]. f_equal; [|by apply IH].
  rewrite <- (ascii_N_embedding a), <- (ascii_N_embedding b). by f_equal.
Qed.

Lemma int_str_inj z1 z2 : int_str z1 = int_str z2 → z1 = z2.
Proof.
  unfold int_str. intros H%u_inj.
  apply DecimalZ.to_int_inj.
  assert (Hnn : ∀ z, Z.to_int z ≠ Decimal.Pos Decimal.Nil
                     ∧ Z.to_int z ≠ Decimal.Neg Decimal.Nil).
  { intros [|p|p]; cbn; split; try discriminate;
      intros [= Hp]; by apply DecimalPos.Unsigned.to_uint_nonnil in Hp. }
  destruct (Hnn z1) as [? ?], (Hnn z2) as [? ?].
  assert (Some (Z.to_int z1) = Some (Z.to_int z2)) as [= ->]; [|done].
  rewrite <- !NilZero.isi by done. by rewrite H.
Qed.

Definition int_alphabet : pystr := u "0123456789-".

Lemma u_cons a s : u (String a s) = N_of_ascii a :: u s.
Proof. reflexivity. Qed.

Lemma uint_str_chars d :
  Forall (λ c, c ∈ int_alphabet) (u (NilEmpty.string_of_uint d)).
Proof.
  induction d; cbn [NilEmpty.string_of_uint]; [by apply Forall_nil|..];
    rewrite u_cons; (constructor; [|done]);
    by apply (bool_decide_unpack _); vm_compute.
Qed.

Lemma int_str_chars z : Forall (λ c, c ∈ int_alphabet) (int_str z).
Proof.
  unfold int_str.
  assert (Hu : ∀ d, Forall (λ c, c ∈ int_alphabet) (u (NilZero.string_of_uint d))).
  { intros d. destruct d; try apply uint_str_chars.
    cbn [NilZero.string_of_uint]. rewrite u_cons.
    constructor; [|constructor]. by apply (bool_decide_unpack _); vm_compute. }
  destruct (Z.to_int z) as [d|d]; cbn [NilZero.string_of_int]; [apply Hu|].
  rewrite u_cons.
  constructor; [by apply (bool_decide_unpack _); vm_compute|apply Hu].
Qed.

Lemma float_str_chars x : Forall (λ c, c ∈ float_alphabet) (float_str x).
Proof.
  destruct x as [s Hs]; cbn. apply Forall_forall. intros c Hc.
  rewrite forallb_forall in Hs. apply list_elem_of_In, Hs in Hc.
  unfold float_char in Hc. by apply bool_decide_eq_true in Hc.
Qed.

(** Neither alphabet holds a character the markup gives a meaning to. *)
Lemma alphabet_neq (alphabet : pystr) (k : N) (s : pystr) :
  bool_decide (k ∉ alphabet) = true →
  Forall (λ c, c ∈ alphabet) s → Forall (λ c, c ≠ k) s.
Proof.
  intros Hk%bool_decide_eq_true Hs.
  eapply Forall_impl; [exact Hs|]. by intros c Hc ->.
Qed.

Lemma esc_char_no_markup c k :
  k ∈ [60; 62; 34; 39]%N → Forall (λ c, c ≠ k) (esc_char c).
Proof.
  rewrite !elem_of_cons, elem_of_nil. intros Hk. unfold esc_char.
  repeat (match goal with
          | |- context [(c =? ?n)%N] => destruct (N.eqb_spec c n) as [->|?]
          end;
          [destruct Hk as [->|[->|[->|[->|[]]]]];
           vm_compute; repeat constructor; discriminate|]).
  constructor; [|constructor].
  destruct Hk as [->|[->|[->|[->|[]]]]]; done.
Qed.

Lemma escaped_no_markup s k :
  k ∈ [60; 62; 34; 39]%N → Forall (λ c, c ≠ k) (s ≫= esc_char).
Proof.
  intros Hk. induction s as [|c s IH]; [constructor|].
  cbn [mbind list_bind]. apply Forall_app. split; [by apply esc_char_no_markup|done].
Qed.

(** ** Counting tags *)

Lemma occurs_cons_ne p0 pat c s :
  c ≠ p0 → occurs (p0 :: pat) (c :: s) = occurs (p0 :: pat) s.
Proof.
  intros Hc. cbn [occurs starts_with].
  by destruct (N.eqb_spec c p0).
Qed.

Lemma occurs_skip p0 pat s t :
  Forall (λ c, c ≠ p0) s → occurs (p0 :: pat) (s ++ t) = occurs (p0 :: pat) t.
Proof.
  induction 1 as [|c s Hc _ IH]; [done|].
  cbn [app]. by rewrite occurs_cons_ne.
Qed.

(** A literal at the head of the text contributes its own occurrences,
    provided none straddles its end; conversion checks that. *)
Ltac occ_lit :=
  match goal with
  | |- context [occurs ?pat (lit ?s ++ ?t)] =>
      let k := eval vm_compute in (occurs pat (lit s)) in
      change (occurs pat (lit s ++ t)) with (k + occurs pat t)%nat
  | |- context [occurs ?pat (u ?s ++ ?t)] =>
      let k := eval vm_compute in (occurs pat (u s)) in
      change (occurs pat (u s ++ t)) with (k + occurs pat t)%nat
  end.

Lemma py_str_numeric_plain v k :
  isinstance v [Cint; Cfloat] = true →
  bool_decide (k ∉ int_alphabet ++ float_alphabet ++ u "TrueFals") = true →
  Forall (λ c, c ≠ k) (py_str v).
Proof.
  intros Hv Hk%bool_decide_eq_true.
  assert (Forall (λ c, c ∈ int_alphabet ++ float_alphabet ++ u "TrueFals")
            (py_str v)) as Hs.
  { destruct v as [s|z|x|[]|]; try discriminate; cbn [py_str].
    - eapply Forall_impl; [apply int_str_chars|].
      intros c Hc. rewrite !elem_of_app. by left.
    - eapply Forall_impl; [apply float_str_chars|].
      intros c Hc. rewrite !elem_of_app. right. by left.
    - change (u "True") with [84; 114; 117; 101]%N.
      repeat constructor; by apply (bool_decide_unpack _); vm_compute.
    - change (u "False") with [70; 97; 108; 115; 101]%N.
      repeat constructor; by apply (bool_decide_unpack _); vm_compute. }
  eapply Forall_impl; [exact Hs|]. by intros c Hc ->.
Qed.

Lemma int_str_plain z k :
  bool_decide (k ∉ int_alphabet) = true → Forall (λ c, c ≠ k) (int_str z).
Proof. intros Hk. eapply alphabet_neq; [exact Hk|apply int_str_chars]. Qed.

Ltac occ_piece :=
  first
    [ occ_lit
    | rewrite occurs_cons_ne by lia
    | rewrite occurs_skip by (apply int_str_plain; reflexivity)
    | rewrite occurs_skip by (apply py_str_numeric_plain; [assumption || reflexivity|reflexivity])
    | rewrite occurs_skip by (apply escaped_no_markup; by apply (bool_decide_unpack _); vm_compute) ].

Ltac occ := rewrite <- ?app_assoc; cbn [app]; repeat occ_piece.

Lemma occurs_text_cell_c j n text t :
  occurs c_tag (text_cell (cell_ref j n) text ++ t) = S (occurs c_tag t).
Proof. unfold text_cell, cell_ref. occ. reflexivity. Qed.

Lemma occurs_text_cell_row j n text t :
  occurs row_tag (text_cell (cell_ref j n) text ++ t) = occurs row_tag t.
Proof. unfold text_cell, cell_ref. occ. reflexivity. Qed.

Lemma occurs_cell_c j n v t :
  occurs c_tag (cell_of (cell_ref j n) v ++ t) = S (occurs c_tag t).
Proof.
  destruct v as [s|z|x|b|]; cbn [cell_of];
    [apply occurs_text_cell_c| | | |apply occurs_text_cell_c];
    unfold num_cell, cell_ref; occ; reflexivity.
Qed.

Lemma occurs_cell_row j n v t :
  occurs row_tag (cell_of (cell_ref j n) v ++ t) = occurs row_tag t.
Proof.
  destruct v as [s|z|x|b|]; cbn [cell_of];
    [apply occurs_text_cell_row| | | |apply occurs_text_cell_row];
    unfold num_cell, cell_ref; occ; reflexivity.
Qed.

Lemma occurs_concat pat (cells : list pystr) k t :
  (∀ c t', c ∈ cells → occurs pat (c ++ t') = (k + occurs pat t')%nat) →
  occurs pat (concat cells ++ t) = (k * length cells + occurs pat t)%nat.
Proof.
  induction cells as [|c cells IH]; intros Hc; [cbn; lia|].
  cbn [concat length].
  rewrite <- app_assoc, Hc by apply list_elem_of_here.
  rewrite IH by (intros; by apply Hc, list_elem_of_further). lia.
Qed.

(** A row element holds one [<c] per cell and one [<row]. *)
Lemma occurs_row_elem_c n cells t :
  (∀ c, c ∈ cells → ∃ j v, c = cell_of (cell_ref j n) v
                      ∨ c = text_cell (cell_ref j n) (py_str v)) →
  occurs c_tag (row_elem n cells ++ t) = (length cells + occurs c_tag t)%nat.
Proof.
  intros Hc. unfold row_elem. occ.
  rewrite (occurs_concat _ _ 1).
  - occ. lia.
  - intros c t' (j & v & [->| ->])%Hc.
    + apply occurs_cell_c.
    + apply occurs_text_cell_c.
Qed.

Lemma occurs_row_elem_row n cells t :
  (∀ c, c ∈ cells → ∃ j v, c = cell_of (cell_ref j n) v
                      ∨ c = text_cell (cell_ref j n) (py_str v)) →
  occurs row_tag (row_elem n cells ++ t) = S (occurs row_tag t).
Proof.
  intros Hc. unfold row_elem. occ.
  rewrite (occurs_concat _ _ 0).
  - occ. lia.
  - intros c t' (j & v & [->| ->])%Hc.
    + apply occurs_cell_row.
    + apply occurs_text_cell_row.
Qed.

(** ** The worksheet builder *)

Lemma chr_col k :
  Z.of_nat k < max_width → chr (65 + Z.of_nat k) = Ok [N.of_nat (65 + k)].
Proof.
  unfold max_width, chr. intros Hk.
  destruct (Z.leb_spec 0 (65 + Z.of_nat k)); [|lia].
  destruct (Z.ltb_spec (65 + Z.of_nat k) 1114112); [|lia].
  cbn [andb]. do 2 f_equal. lia.
Qed.

Lemma chr_col_err k :
  max_width ≤ Z.of_nat k → chr (65 + Z.of_nat k) = Err ValueError.
Proof.
  unfold max_width, chr. intros Hk.
  destruct (Z.ltb_spec (65 + Z.of_nat k) 1114112); [lia|].
  by rewrite andb_false_r.
Qed.

Lemma header_cell_ok w content k h :
  Z.of_nat k < max_width →
  header_cell w content (Z.of_nat k, h)
  = Ok (content ++ text_cell (cell_ref k 1) (py_str h)).
Proof.
  intros Hk. unfold header_cell. rewrite chr_col by done.
  cbn [mbind result_bind mret result_ret].
  rewrite _escape_xml_chars. unfold text_cell, cell_ref.
  rewrite <- ?app_assoc. reflexivity.
Qed.

Lemma header_cell_err w content k h :
  max_width ≤ Z.of_nat k →
  header_cell w content (Z.of_nat k, h) = Err ValueError.
Proof. intros Hk. unfold header_cell. by rewrite chr_col_err. Qed.

Lemma data_cell_ok w n content k v :
  Z.of_nat k < max_width →
  data_cell w n content (Z.of_nat k, v)
  = Ok (content ++ cell_of (cell_ref k n) v).
Proof.
  intros Hk. unfold data_cell. rewrite chr_col by done.
  cbn [mbind result_bind mret result_ret].
  destruct v as [s|z|x|b|]; cbn [isinstance existsb type_of issubclass orb];
    cbn [cell_of]; unfold fmt, num_cell, text_cell, cell_ref;
    rewrite ?_escape_xml_chars; cbn [py_str]; rewrite <- ?app_assoc;
    reflexivity.
Qed.

Lemma data_cell_err w n content k v :
  max_width ≤ Z.of_nat k →
  data_cell w n content (Z.of_nat k, v) = Err ValueError.
Proof. intros Hk. unfold data_cell. by rewrite chr_col_err. Qed.

(** A loop over [enumerate(xs)] whose body appends one piece per item and
    raises once the index leaves the range of [chr]. *)
Lemma for_in_append {A} (body : pystr → Z * A → result pystr)
    (piece : nat → A → pystr) (xs : list A) (i : nat) (content : pystr) :
  (∀ k x c, Z.of_nat k < max_width →
            body c (Z.of_nat k, x) = Ok (c ++ piece k x)) →
  (∀ k x c, max_width ≤ Z.of_nat k → body c (Z.of_nat k, x) = Err ValueError) →
  Z.of_nat i ≤ max_width →
  for_in (enumerate_from (Z.of_nat i) xs) body content
  = if Z.of_nat (i + length xs) <=? max_width
    then Ok (content ++ concat (imap (λ j, piece (i + j)%nat) xs))
    else Err ValueError.
Proof.
  intros Hok Herr. revert i content.
  induction xs as [|x xs IH]; intros i content Hi.
  - cbn [for_in enumerate_from length imap concat].
    rewrite Nat.add_0_r, app_nil_r.
    by destruct (Z.leb_spec (Z.of_nat i) max_width); [|lia].
  - cbn [for_in enumerate_from length].
    destruct (decide (Z.of_nat i < max_width)) as [Hlt|Hge].
    + rewrite Hok by done. cbn [mbind result_bind].
      replace (Z.of_nat i + 1) with (Z.of_nat (S i)) by lia.
      rewrite IH by lia.
      replace (S i + length xs)%nat with (i + S (length xs))%nat by lia.
      destruct (Z.leb_spec (Z.of_nat (i + S (length xs))) max_width); [|done].
      rewrite imap_cons. cbn [concat]. rewrite Nat.add_0_r, <- app_assoc.
      do 4 f_equal. apply imap_ext. intros j y _. cbn. f_equal. lia.
    + rewrite Herr by lia. cbn [mbind result_bind].
      by destruct (Z.leb_spec (Z.of_nat (i + S (length xs))) max_width); [lia|].
Qed.

Lemma header_loop w hs content :
  for_in (enumerate hs) (header_cell w) content
  = if fits hs then Ok (content ++ concat (header_cells hs))
    else Err ValueError.
Proof.
  unfold enumerate, fits, header_cells. change 0 with (Z.of_nat 0).
  rewrite (for_in_append _ (λ j h, text_cell (cell_ref j 1) (py_str h)));
    [done|intros; by apply header_cell_ok|intros; by apply header_cell_err|done].
Qed.

Lemma cell_loop w n row content :
  for_in (enumerate row) (data_cell w n) content
  = if fits row then Ok (content ++ concat (row_cells n row))
    else Err ValueError.
Proof.
  unfold enumerate, fits, row_cells. change 0 with (Z.of_nat 0).
  rewrite (for_in_append _ (λ j v, cell_of (cell_ref j n) v));
    [done|intros; by apply data_cell_ok|intros; by apply data_cell_err|done].
Qed.

Lemma data_row_eq w content i row :
  data_row w content (i, row)
  = if fits row then Ok (content ++ row_elem (i + 2) (row_cells (i + 2) row))
    else Err ValueError.
Proof.
  unfold data_row. rewrite cell_loop. destruct (fits row); [|done].
  cbn [mbind result_bind mret result_ret]. unfold row_elem, fmt. cbn [py_str].
  rewrite <- ?app_assoc. reflexivity.
Qed.

Lemma row_loop w rws (i : nat) content :
  for_in (enumerate_from (Z.of_nat i) rws) (data_row w) content
  = if forallb fits rws
    then Ok (content ++ concat
               (imap (λ k row, row_elem (Z.of_nat (i + k) + 2)
                                 (row_cells (Z.of_nat (i + k) + 2) row)) rws))
    else Err ValueError.
Proof.
  revert i content. induction rws as [|row rws IH]; intros i content.
  - cbn. by rewrite app_nil_r.
  - cbn [for_in enumerate_from forallb]. rewrite data_row_eq.
    destruct (fits row); [|done]. cbn [mbind result_bind andb].
    replace (Z.of_nat i + 1) with (Z.of_nat (S i)) by lia.
    rewrite IH. destruct (forallb fits rws); [|done].
    rewrite imap_cons. cbn [concat]. rewrite Nat.add_0_r, <- app_assoc.
    do 4 f_equal. apply imap_ext. intros j y _. cbn.
    by replace (i + S j)%nat with (S (i + j)) by lia.
Qed.

(** The builder raises [ValueError] when a row is too wide to be lettered,
    and otherwise returns the rows laid out one after the other. *)
Lemma worksheet_xml_eq w sh :
  worksheet_xml w sh
  = if fits (headers sh) && forallb fits (rows sh)
    then Ok (worksheet_doc sh) else Err ValueError.
Proof.
  unfold worksheet_xml. rewrite header_loop.
  destruct (fits (headers sh)); [|done]. cbn [mbind result_bind andb].
  unfold enumerate. change 0 with (Z.of_nat 0). rewrite row_loop.
  destruct (forallb fits (rows sh)); [|done].
  cbn [mbind result_bind mret result_ret].
  unfold worksheet_doc, sheet_rows, row_elem. cbn [concat].
  rewrite <- ?app_assoc. reflexivity.
Qed.

Lemma occurs_concat_sum pat (els : list pystr) (ks : list nat) t :
  Forall2 (λ e k, ∀ t', occurs pat (e ++ t') = (k + occurs pat t')%nat) els ks →
  occurs pat (concat els ++ t) = (sum_list ks + occurs pat t)%nat.
Proof.
  induction 1 as [|e k els ks He _ IH]; [done|].
  cbn [concat]. rewrite <- app_assoc, He, IH. simpl. lia.
Qed.

Lemma Forall2_imap_fmap {A B C} (P : B → C → Prop) (f : nat → A → B)
    (g : A → C) (l : list A) :
  (∀ i x, P (f i x) (g x)) → Forall2 P (imap f l) (g <$> l).
Proof.
  revert f. induction l as [|x l IH]; intros f Hf; [constructor|].
  rewrite imap_cons, fmap_cons. constructor; [done|]. apply IH. intros; apply Hf.
Qed.

Lemma header_row_cells hs c :
  c ∈ header_cells hs →
  ∃ j v, c = cell_of (cell_ref j 1) v ∨ c = text_cell (cell_ref j 1) (py_str v).
Proof.
  unfold header_cells. intros (j & h & -> & _)%elem_of_lookup_imap. eauto.
Qed.

Lemma data_row_cells n row c :
  c ∈ row_cells n row →
  ∃ j v, c = cell_of (cell_ref j n) v ∨ c = text_cell (cell_ref j n) (py_str v).
Proof.
  unfold row_cells. intros (j & h & -> & _)%elem_of_lookup_imap. eauto.
Qed.

Lemma occurs_sheet_rows_c sh t :
  occurs c_tag (concat (sheet_rows sh) ++ t)
  = (length (headers sh) + sum_list (length <$> rows sh) + occurs c_tag t)%nat.
Proof.
  rewrite (occurs_concat_sum _ _ (length (headers sh) :: (length <$> rows sh)));
    [simpl; lia|].
  unfold sheet_rows. constructor.
  - intros t'. rewrite occurs_row_elem_c by apply header_row_cells.
    unfold header_cells. by rewrite length_imap.
  - apply Forall2_imap_fmap. intros i row t'.
    rewrite occurs_row_elem_c by apply data_row_cells.
    unfold row_cells. by rewrite length_imap.
Qed.

Lemma occurs_sheet_rows_row sh t :
  occurs row_tag (concat (sheet_rows sh) ++ t)
  = (S (length (rows sh)) + occurs row_tag t)%nat.
Proof.
  rewrite (occurs_concat _ _ 1).
  - unfold sheet_rows. cbn [length]. rewrite length_imap. lia.
  - unfold sheet_rows. intros c t' [->|Hc]%elem_of_cons.
    + by rewrite occurs_row_elem_row by apply header_row_cells.
    + apply elem_of_lookup_imap in Hc as (i & row & -> & _).
      by rewrite occurs_row_elem_row by apply data_row_cells.
Qed.

(** C1.  Whenever the builder returns a document for a sheet with [h]
    headers and [r] data rows, the document is the fixed head, [r + 1] row
    elements and the fixed tail.  The first row element is numbered 1 and
    holds the [h] header cells; for each data row [i] (from 0) there is a
    row element numbered [i + 2] holding one cell per value of that row, in
    order, whatever the length of the row.  Counted in the text itself,
    the document has [r + 1] opening [row] tags and one opening [c] tag per
    header and per value. *)
Theorem worksheet_rows_and_cells w sh doc :
  worksheet_xml w sh = Ok doc →
  doc = worksheet_head ++ concat (sheet_rows sh) ++ worksheet_tail
  ∧ length (sheet_rows sh) = S (length (rows sh))
  ∧ sheet_rows sh !! 0%nat = Some (row_elem 1 (header_cells (headers sh)))
  ∧ length (header_cells (headers sh)) = length (headers sh)
  ∧ (∀ j h, headers sh !! j = Some h →
       header_cells (headers sh) !! j
       = Some (text_cell (cell_ref j 1) (py_str h)))
  ∧ (∀ i row, rows sh !! i = Some row →
       let n := Z.of_nat i + 2 in
       sheet_rows sh !! S i = Some (row_elem n (row_cells n row))
       ∧ length (row_cells n row) = length row
       ∧ ∀ j v, row !! j = Some v →
           row_cells n row !! j = Some (cell_of (cell_ref j n) v))
  ∧ occurs row_tag doc = S (length (rows sh))
  ∧ occurs c_tag doc
    = (length (headers sh) + sum_list (length <$> rows sh))%nat.
Proof.
  rewrite worksheet_xml_eq.
  destruct (fits (headers sh) && forallb fits (rows sh)); [|done].
  intros [= <-]. unfold worksheet_doc.
  split_and!.
  - done.
  - unfold sheet_rows. cbn [length]. by rewrite length_imap.
  - done.
  - unfold header_cells. by rewrite length_imap.
  - intros j h Hj. unfold header_cells. by rewrite list_lookup_imap, Hj.
  - intros i row Hi. split_and!.
    + unfold sheet_rows. rewrite lookup_cons.
      by rewrite list_lookup_imap, Hi.
    + unfold row_cells. by rewrite length_imap.
    + intros j v Hj. unfold row_cells. by rewrite list_lookup_imap, Hj.
  - unfold worksheet_head. occ. rewrite occurs_sheet_rows_row.
    unfold worksheet_tail.
    change (occurs row_tag (lit ?s)) with 0%nat. lia.
  - unfold worksheet_head. occ. rewrite occurs_sheet_rows_c.
    unfold worksheet_tail.
    change (occurs c_tag (lit ?s)) with 0%nat. lia.
Qed.

(** ** The cell serializer *)

(** C4.  Escaping replaces each of the five metacharacters by its entity
    and leaves every other character alone; the escaped text holds none of
    [<], [>], double quote and apostrophe; reading the entities back gives
    the original string, for every string; and a text cell carries exactly
    the escaped text. *)
Theorem escape_roundtrip (s : pystr) :
  _escape_xml (PStr s) = s ≫= esc_char
  ∧ _escape_xml (PStr (lit "&<>`'")) = lit "&amp;&lt;&gt;&quot;&apos;"
  ∧ (∀ c, c ∉ lit "&<>`'" → esc_char c = [c])
  ∧ (∀ k, k ∈ lit "<>`'" → k ∉ _escape_xml (PStr s))
  ∧ xml_unescape (_escape_xml (PStr s)) = s
  ∧ ∀ w n content col,
      data_cell w n content (col, PStr s)
      = (col_letter ← chr (65 + col);
         mret (content ++ lit "<c r=`" ++ col_letter ++ int_str n
                 ++ lit "` t=`inlineStr`><is><t>" ++ _escape_xml (PStr s)
                 ++ lit "</t></is></c>")).
Proof.
  split_and!.
  - apply _escape_xml_chars.
  - by vm_compute.
  - intros c Hc. unfold esc_char.
    repeat (match goal with
            | |- context [(c =? ?n)%N] => destruct (N.eqb_spec c n) as [->|?]
            end;
            [exfalso; apply Hc; by apply (bool_decide_unpack _); vm_compute|]).
    done.
  - intros k Hk Hin. rewrite _escape_xml_chars in Hin.
    assert (k ∈ [60; 62; 34; 39]%N) as Hk' by exact Hk.
    pose proof (escaped_no_markup s k Hk') as Hall.
    rewrite Forall_forall in Hall. by apply (Hall k).
  - rewrite _escape_xml_chars. apply unescape_escape.
  - intros w n content col. unfold data_cell.
    destruct (chr (65 + col)); reflexivity.
Qed.

(** C5.  A data cell holding an int or a float is emitted as
    [<c r=coord><v>value</v></c>], which has no [t] attribute; a cell
    holding a string (or [None]) is emitted as an inline-string cell with
    the escaped text.  In particular 42 and 3.14 give [<v>42</v>] and
    [<v>3.14</v>], and the string 42 gives an inline string. *)
Theorem data_cell_by_type w n content col :
  (∀ z, data_cell w n content (col, PInt z)
        = (col_letter ← chr (65 + col);
           mret (content ++ num_cell (col_letter ++ int_str n) (int_str z))))
  ∧ (∀ x, data_cell w n content (col, PFloat x)
          = (col_letter ← chr (65 + col);
             mret (content ++ num_cell (col_letter ++ int_str n) (float_str x))))
  ∧ (∀ s, data_cell w n content (col, PStr s)
          = (col_letter ← chr (65 + col);
             mret (content ++ text_cell (col_letter ++ int_str n) s)))
  ∧ data_cell w n content (col, PNone)
    = (col_letter ← chr (65 + col);
       mret (content ++ text_cell (col_letter ++ int_str n) (u "None")))
  ∧ (∀ j z, occurs t_attr (num_cell (cell_ref j n) (int_str z)) = 0%nat)
  ∧ (∀ j x, occurs t_attr (num_cell (cell_ref j n) (float_str x)) = 0%nat)
  ∧ data_cell w 2 [] (0, PInt 42) = Ok (lit "<c r=`A2`><v>42</v></c>")
  ∧ data_cell w 2 [] (0, PFloat float_3_14)
    = Ok (lit "<c r=`A2`><v>3.14</v></c>")
  ∧ data_cell w 2 [] (0, PStr (u "42"))
    = Ok (lit "<c r=`A2` t=`inlineStr`><is><t>42</t></is></c>").
Proof.
  split_and!.
  - intros z. unfold data_cell, num_cell. destruct (chr (65 + col)); [|done].
    cbn -[lit]. by rewrite <- ?app_assoc.
  - intros x. unfold data_cell, num_cell. destruct (chr (65 + col)); [|done].
    cbn -[lit]. by rewrite <- ?app_assoc.
  - intros s. unfold data_cell, text_cell. destruct (chr (65 + col)); [|done].
    cbn -[lit _escape_xml]. by rewrite _escape_xml_chars, <- ?app_assoc.
  - unfold data_cell, text_cell. destruct (chr (65 + col)); [|done].
    cbn -[lit _escape_xml]. by rewrite _escape_xml_chars, <- ?app_assoc.
  - intros j z. rewrite <- (app_nil_r (num_cell _ _)).
    unfold num_cell, cell_ref. occ. reflexivity.
  - intros j x. rewrite <- (app_nil_r (num_cell _ _)).
    unfold num_cell, cell_ref. occ.
    rewrite occurs_skip
      by (apply (py_str_numeric_plain (PFloat x)); reflexivity).
    occ. reflexivity.
  - by vm_compute.
  - by vm_compute.
  - by vm_compute.
Qed.

(** C8.  Every header, whatever its type, is emitted in row 1 as an
    inline-string cell holding the escaped text of [str(header)], at the
    column letter followed by 1; such a cell has no [<v>] element.  A
    numeric header such as 7 is text as well. *)
Theorem header_cell_is_text w content col (v : pyval) :
  header_cell w content (col, v)
  = (col_letter ← chr (65 + col);
     mret (content ++ text_cell (col_letter ++ u "1") (py_str v)))
  ∧ (∀ j, occurs v_tag (text_cell (cell_ref j 1) (py_str v)) = 0%nat)
  ∧ (∀ j, occurs t_attr (text_cell (cell_ref j 1) (u "x")) = 1%nat)
  ∧ header_cell w [] (0, PInt 7)
    = Ok (lit "<c r=`A1` t=`inlineStr`><is><t>7</t></is></c>")
  ∧ header_cell w [] (1, PFloat float_3_14)
    = Ok (lit "<c r=`B1` t=`inlineStr`><is><t>3.14</t></is></c>").
Proof.
  split_and!.
  - unfold header_cell, text_cell. destruct (chr (65 + col)); [|done].
    cbn -[lit _escape_xml]. rewrite _escape_xml_chars, <- ?app_assoc.
    reflexivity.
  - intros j. rewrite <- (app_nil_r (text_cell _ _)).
    unfold text_cell, cell_ref. occ. reflexivity.
  - intros j. rewrite <- (app_nil_r (text_cell _ _)).
    unfold text_cell, cell_ref. occ. reflexivity.
  - by vm_compute.
  - by vm_compute.
Qed.

(** C10.  [True] and [False] pass the numeric check, because [bool] is a
    subclass of [int]: a boolean data cell is emitted with no type
    attribute and the body [<v>True</v>] or [<v>False</v>], never as an
    inline string. *)
Theorem bool_cell_is_numeric w n content col (b : bool) :
  isinstance (PBool b) [Cint; Cfloat] = true
  ∧ data_cell w n content (col, PBool b)
    = (col_letter ← chr (65 + col);
       mret (content ++ lit "<c r=`" ++ col_letter ++ int_str n ++ lit "`><v>"
               ++ (if b then u "True" else u "False") ++ lit "</v></c>"))
  ∧ (∀ j, occurs t_attr (num_cell (cell_ref j n) (py_str (PBool b))) = 0%nat)
  ∧ data_cell w 2 [] (0, PBool true) = Ok (lit "<c r=`A2`><v>True</v></c>")
  ∧ data_cell w 2 [] (1, PBool false) = Ok (lit "<c r=`B2`><v>False</v></c>").
Proof.
  split_and!.
  - by destruct b.
  - unfold data_cell. destruct (chr (65 + col)); [|done].
    destruct b; reflexivity.
  - intros j. rewrite <- (app_nil_r (num_cell _ _)).
    unfold num_cell, cell_ref. occ. reflexivity.
  - by vm_compute.
  - by vm_compute.
Qed.

(** C2 (what the code does).  Indices 0 to 25 are lettered A to Z.  Index
    26 raises no error and is not lettered AA: [chr(91)] is an opening
    square bracket, and the cell reference of the 27th header is that
    character followed by 1. *)
Theorem column_letter_past_Z w :
  (λ i, chr (65 + i)) <$> seqZ 0 26
  = (λ c, Ok [c]) <$> u "ABCDEFGHIJKLMNOPQRSTUVWXYZ"
  ∧ chr (65 + 26) = Ok (u "[")
  ∧ header_cell w [] (26, PStr (u "h"))
    = Ok (lit "<c r=`[1` t=`inlineStr`><is><t>h</t></is></c>")
  ∧ data_cell w 2 [] (26, PInt 5) = Ok (lit "<c r=`[2`><v>5</v></c>").
Proof. split_and!; by vm_compute. Qed.

(** ** Paths *)

Lemma split_slash_nonempty s : split_slash s ≠ [].
Proof.
  destruct s as [|c s]; cbn; [done|].
  destruct (c =? slash)%N; [done|]. by destruct (split_slash s).
Qed.

Lemma split_slash_app_slash s t :
  split_slash (s ++ slash :: t) = split_slash s ++ split_slash t.
Proof.
  induction s as [|c s IH]; [done|].
  cbn [app split_slash]. rewrite IH.
  destruct (c =? slash)%N; [done|].
  pose proof (split_slash_nonempty s). by destruct (split_slash s).
Qed.

Lemma split_slash_plain t : Forall (λ c, c ≠ slash) t → split_slash t = [t].
Proof.
  induction 1 as [|c t Hc _ IH]; [done|].
  cbn [split_slash]. rewrite IH. by destruct (N.eqb_spec c slash).
Qed.

Lemma split_slash_app_plain s t :
  Forall (λ c, c ≠ slash) t →
  ∃ init lastc, split_slash s = init ++ [lastc]
                ∧ split_slash (s ++ t) = init ++ [lastc ++ t].
Proof.
  intros Ht. induction s as [|c s (init & lastc & Hs & Hst)].
  - exists [], []. split; [done|]. cbn [app]. by apply split_slash_plain.
  - cbn [app split_slash]. rewrite Hs, Hst.
    destruct (c =? slash)%N.
    + by exists ([] :: init), lastc.
    + destruct init as [|w ws].
      * by exists [], (c :: lastc).
      * by exists ((c :: w) :: ws), lastc.
Qed.

Lemma norm_step_plain stack c : plain c → norm_step stack c = stack ++ [c].
Proof.
  intros (? & ? & ?). unfold norm_step.
  rewrite bool_decide_eq_false_2 by (intros [?|?]; done).
  by rewrite bool_decide_eq_false_2.
Qed.

Lemma foldl_norm_step_plain stack comps :
  Forall plain comps → foldl norm_step stack comps = stack ++ comps.
Proof.
  intros H. revert stack. induction H as [|c comps Hc _ IH]; intros stack.
  - by rewrite app_nil_r.
  - cbn [foldl]. rewrite norm_step_plain, IH by done. by rewrite <- app_assoc.
Qed.

Lemma parse_app_slash s t :
  parse (s ++ slash :: t) = foldl norm_step (parse s) (split_slash t).
Proof. unfold parse. by rewrite split_slash_app_slash, foldl_app. Qed.

Lemma split_slash_join comps :
  comps ≠ [] → Forall (Forall (λ c, c ≠ slash)) comps →
  split_slash (join_slash comps) = comps.
Proof.
  intros Hne H. induction H as [|c comps Hc Hcs IH]; [done|].
  destruct comps as [|c' comps].
  - cbn [join_slash]. by apply split_slash_plain.
  - change (join_slash (c :: c' :: comps))
      with (c ++ slash :: join_slash (c' :: comps)).
    rewrite split_slash_app_slash, IH by done.
    by rewrite split_slash_plain.
Qed.

(** A relative path of plain, slash-free components, joined to a
    directory name, resolves below that directory. *)
Lemma parse_sub td comps :
  comps ≠ [] → Forall (Forall (λ c, c ≠ slash)) comps → Forall plain comps →
  parse (td ++ slash :: join_slash comps) = parse td ++ comps.
Proof.
  intros. by rewrite parse_app_slash, split_slash_join, foldl_norm_step_plain.
Qed.

Lemma staging_target w :
  ∃ stack lastc,
    staging w = stack ++ [lastc ++ lit "_temp"]
    ∧ target w = norm_step stack lastc.
Proof.
  unfold staging, target, parse.
  destruct (split_slash_app_plain (filename w) (lit "_temp"))
    as (init & lastc & -> & ->).
  { vm_compute. repeat constructor; discriminate. }
  exists (foldl norm_step [] init), lastc.
  rewrite !foldl_app. cbn [foldl]. split; [|done].
  apply norm_step_plain.
  split_and!; intros H%(f_equal length); rewrite length_app in H;
    cbn in H; lia.
Qed.

Lemma staging_not_prefix_target w : ¬ staging w `prefix_of` target w.
Proof.
  destruct (staging_target w) as (stack & lastc & -> & ->).
  unfold norm_step. intros Hp.
  pose proof (prefix_length _ _ Hp) as Hlen.
  rewrite length_app in Hlen. cbn [length] in Hlen.
  repeat case_bool_decide.
  - lia.
  - destruct stack using rev_ind; [cbn in Hlen; lia|].
    rewrite removelast_last, length_app in Hlen. lia.
  - apply prefix_app_inv in Hp. destruct Hp as [k Hk].
    destruct k; [|apply (f_equal length) in Hk; cbn in Hk; lia].
    injection Hk as Hk. apply (f_equal length) in Hk.
    rewrite length_app in Hk. cbn in Hk. lia.
Qed.

(** ** File-system operations *)

Lemma bind_ok {A B} (m : io A) (k : A → io B) σ σ' b :
  (m ≫= k) σ = (σ', Ok b) → ∃ σ1 a, m σ = (σ1, Ok a) ∧ k a σ1 = (σ', Ok b).
Proof.
  unfold mbind, io_bind. destruct (m σ) as [σ1 [a|e]]; [eauto|discriminate].
Qed.

Lemma mkdirs_files done todo σ σ' r p d :
  mkdirs done todo σ = (σ', r) →
  σ' !! p = Some (File d) ↔ σ !! p = Some (File d).
Proof.
  revert done σ. induction todo as [|c todo IH]; intros done σ.
  - by intros [= <- _].
  - cbn [mkdirs]. destruct (σ !! (done ++ [c])) as [[|d']|] eqn:E.
    + apply IH.
    + by intros [= <- _].
    + intros H%IH. rewrite H. destruct (decide (p = done ++ [c])) as [->|Hne].
      * rewrite lookup_insert_eq, E. split; discriminate.
      * by rewrite lookup_insert_ne.
Qed.

Lemma makedirs_files name σ σ' r p d :
  makedirs name σ = (σ', r) →
  σ' !! p = Some (File d) ↔ σ !! p = Some (File d).
Proof.
  unfold makedirs. destruct name; [by intros [= <- _]|apply mkdirs_files].
Qed.

Lemma create_ok name d σ σ' p :
  create name d σ = (σ', Ok p) → p = parse name ∧ σ' = <[parse name := File d]> σ.
Proof.
  unfold create. destruct name as [|c name]; [done|].
  generalize (parse (c :: name)). intros q.
  destruct q as [|q0 q]; [done|].
  destruct (match removelast (q0 :: q) with
            | [] => Some Dir
            | _ :: _ => σ !! removelast (q0 :: q)
            end) as [[|?]|]; try done.
  destruct (σ !! (q0 :: q)) as [[|?]|]; try done; by intros [= <- <-].
Qed.

Lemma write_text_ok name content σ σ' :
  write_text name content σ = (σ', Ok ()) →
  σ' = <[parse name := File (Text content)]> σ.
Proof.
  unfold write_text. intros (σ1 & p & [-> ->]%create_ok & H)%bind_ok.
  destruct (existsb surrogate content); [done|].
  injection H as <-. by rewrite insert_insert_eq.
Qed.

Lemma zip_loop zf (l : list (path * data)) σ es :
  σ !! zf = Some (File (Zip es)) →
  io_for l (λ '(rel, d), zip_write zf (join_slash rel) d) σ
  = (<[zf := File (Zip (es ++ (entry_of <$> l)))]> σ, Ok ()).
Proof.
  revert σ es. induction l as [|[rel d] l IH]; intros σ es Hzf.
  - cbn. by rewrite app_nil_r, insert_id.
  - cbn [io_for]. unfold mbind, io_bind, zip_write at 1. rewrite Hzf.
    erewrite IH by apply lookup_insert_eq.
    rewrite insert_insert_eq, fmap_cons, <- app_assoc. done.
Qed.

Lemma rmtree_ok name σ σ' :
  rmtree name σ = (σ', Ok ()) →
  σ' = filter (λ '(p, _), ¬ parse name `prefix_of` p) σ.
Proof.
  unfold rmtree. destruct (σ !! parse name) as [[|?]|]; try done.
  by intros [= <-].
Qed.

(** ** Walking a directory *)

Lemma elem_of_walk top σ rel d :
  (rel, d) ∈ walk top σ ↔ σ !! (top ++ rel) = Some (File d).
Proof.
  unfold walk. rewrite list_elem_of_omap. split.
  - intros ([p n] & Hpn%elem_of_map_to_list & Hg).
    destruct n as [|d']; [done|]. case_bool_decide as Hp; [|done].
    injection Hg as <- <-. destruct Hp as [k ->].
    by rewrite drop_app_length.
  - intros H. exists (top ++ rel, File d). split.
    + by apply elem_of_map_to_list.
    + rewrite bool_decide_eq_true_2 by by exists rel.
      by rewrite drop_app_length.
Qed.

Lemma NoDup_walk top σ : NoDup (walk top σ).
Proof.
  unfold walk.
  assert (∀ l : list (path * node), NoDup l.*1 →
            NoDup (omap (λ '(p, n),
                     match n with
                     | File d =>
                         if bool_decide (top `prefix_of` p)
                         then Some (drop (length top) p, d) else None
                     | Dir => None
                     end) l)) as Hgen.
  { induction l as [|[p n] l IH]; [constructor|].
    intros Hnd. rewrite fmap_cons in Hnd.
    apply NoDup_cons in Hnd as [Hp Hl]. cbn [fst] in Hp.
    cbn [omap list_omap]. destruct n as [|d]; [by apply IH|].
    case_bool_decide as Hpre; [|by apply IH].
    apply NoDup_cons. split; [|by apply IH].
    rewrite list_elem_of_omap. intros ([p' n'] & Hin & Hg).
    destruct n' as [|d']; [done|]. case_bool_decide as Hpre'; [|done].
    injection Hg as Hdrop ->. apply Hp.
    destruct Hpre as [k ->], Hpre' as [k' ->].
    rewrite !drop_app_length in Hdrop. subst k'.
    apply list_elem_of_fmap. by exists (top ++ k, File d). }
  apply Hgen, NoDup_fst_map_to_list.
Qed.

(** ** Staging the parts *)

Lemma stage_cons top σ rel c ps :
  stage top σ ((rel, c) :: ps)
  = stage top (<[top ++ rel := File (Text c)]> σ) ps.
Proof. reflexivity. Qed.

Lemma stage_app top σ ps qs :
  stage top σ (ps ++ qs) = stage top (stage top σ ps) qs.
Proof. unfold stage. apply foldl_app. Qed.

Lemma lookup_stage_other top σ ps q :
  (∀ rel, rel ∈ ps.*1 → top ++ rel ≠ q) → stage top σ ps !! q = σ !! q.
Proof.
  revert σ. induction ps as [|[rel c] ps IH]; intros σ Hq; [done|].
  rewrite stage_cons, IH.
  - apply lookup_insert_ne, Hq. rewrite fmap_cons. apply list_elem_of_here.
  - intros rel' Hrel'. apply Hq. rewrite fmap_cons.
    by apply list_elem_of_further.
Qed.

Lemma lookup_stage_part top σ ps rel c :
  NoDup ps.*1 → (rel, c) ∈ ps →
  stage top σ ps !! (top ++ rel) = Some (File (Text c)).
Proof.
  revert σ. induction ps as [|[rel' c'] ps IH]; intros σ Hnd Hin.
  - by apply elem_of_nil in Hin.
  - rewrite fmap_cons, NoDup_cons in Hnd. destruct Hnd as [Hrel' Hnd].
    rewrite stage_cons. apply elem_of_cons in Hin as [[= <- <-]|Hin].
    + rewrite lookup_stage_other; [apply lookup_insert_eq|].
      intros rel2 Hrel2 Heq%app_inv_head. by subst.
    + by apply IH.
Qed.

Lemma fst_sheet_parts i docs :
  (sheet_parts i docs).*1 = sheet_part_path <$> seqZ i (Z.of_nat (length docs)).
Proof.
  unfold sheet_parts. apply fst_zip.
  rewrite length_fmap, length_seqZ. lia.
Qed.

Lemma snd_sheet_parts i docs : (sheet_parts i docs).*2 = docs.
Proof.
  unfold sheet_parts. apply snd_zip.
  rewrite length_fmap, length_seqZ. lia.
Qed.

Lemma sheet_parts_cons i d docs :
  sheet_parts i (d :: docs) = (sheet_part_path i, d) :: sheet_parts (i + 1) docs.
Proof.
  unfold sheet_parts. cbn [length].
  rewrite seqZ_cons by lia. rewrite fmap_cons. cbn [zip zip_with].
  do 4 f_equal; lia.
Qed.

#[local] Instance sheet_part_path_inj : Inj (=) (=) sheet_part_path.
Proof.
  intros k1 k2 [= H]. apply app_inv_tail in H.
  by apply int_str_inj.
Qed.

Lemma NoDup_parts docs : NoDup (parts docs).*1.
Proof.
  unfold parts. rewrite fmap_app, fst_sheet_parts.
  apply NoDup_app. split_and!.
  - by apply (bool_decide_unpack _); vm_compute.
  - intros rel Hd (k & -> & _)%list_elem_of_fmap.
    unfold descriptor_parts in Hd. cbn [fmap list_fmap fst] in Hd.
    rewrite !elem_of_cons, elem_of_nil in Hd.
    destruct Hd as [H|[H|[H|[H|[]]]]]; discriminate H.
  - apply (NoDup_fmap_2 _), NoDup_seqZ.
Qed.

Lemma sheet_name_join k : join_slash (sheet_part_path k) = sheet_name k.
Proof. reflexivity. Qed.

Lemma slash_free_lit (s : pystr) :
  forallb (λ c, negb (c =? slash)%N) s = true → Forall (λ c, c ≠ slash) s.
Proof.
  rewrite forallb_forall, Forall_forall. intros H c Hc%list_elem_of_In%H.
  by destruct (N.eqb_spec c slash).
Qed.

Lemma parse_sheet_part td k :
  parse (td ++ lit "/xl/worksheets/sheet" ++ int_str k ++ lit ".xml")
  = parse td ++ sheet_part_path k.
Proof.
  rewrite <- parse_sub; [done|done|..]; unfold sheet_part_path.
  - apply Forall_cons; split; [by apply slash_free_lit|].
    apply Forall_cons; split; [by apply slash_free_lit|].
    apply Forall_cons; split; [|by apply Forall_nil].
    rewrite !Forall_app. split_and!; try (by apply slash_free_lit).
    by apply int_str_plain.
  - apply Forall_cons; split; [by vm_compute|].
    apply Forall_cons; split; [by vm_compute|].
    apply Forall_cons; split; [|by apply Forall_nil].
    split_and!; intros H%(f_equal length); rewrite !length_app in H;
      cbn in H; lia.
Qed.

Lemma parse_descriptor_part td rel c :
  (rel, c) ∈ descriptor_parts →
  parse (td ++ slash :: join_slash rel) = parse td ++ rel.
Proof.
  unfold descriptor_parts. rewrite !elem_of_cons, elem_of_nil.
  intros [H|[H|[H|[H|[]]]]]; injection H as -> _;
    (apply parse_sub;
     [done
     |repeat (apply Forall_cons; split; [by apply slash_free_lit|]);
      by apply Forall_nil
     |repeat (apply Forall_cons; split; [by vm_compute|]);
      by apply Forall_nil]).
Qed.

(** ** Saving *)

Lemma lift_ok {A} (r : result A) σ σ' a :
  lift r σ = (σ', Ok a) → r = Ok a ∧ σ' = σ.
Proof. by intros [= <- ->]. Qed.

Lemma sheets_loop w td shs (i : Z) σ σ' :
  io_for (enumerate_from i shs)
    (λ '(i, sheet), _create_worksheet w td (i + 1) sheet) σ = (σ', Ok ()) →
  ∃ docs, Forall2 (λ sh doc, worksheet_xml w sh = Ok doc) shs docs
          ∧ σ' = stage (parse td) σ (sheet_parts (i + 1) docs).
Proof.
  revert i σ. induction shs as [|sh shs IH]; intros i σ.
  - intros [= <-]. exists []. split; [constructor|done].
  - cbn [io_for enumerate_from].
    intros (σ1 & [] & Hsh & Hrest)%bind_ok.
    unfold _create_worksheet in Hsh.
    apply bind_ok in Hsh as (σ0 & doc & [Hdoc ->]%lift_ok & Hw).
    apply write_text_ok in Hw. unfold fmt in Hw. cbn [py_str] in Hw.
    rewrite parse_sheet_part in Hw.
    apply IH in Hrest as (docs & Hdocs & ->).
    exists (doc :: docs). split; [by constructor|].
    by rewrite sheet_parts_cons, stage_cons, Hw.
Qed.

Lemma parse_content_types td :
  parse (td ++ lit "/[Content_Types].xml") = parse td ++ [lit "[Content_Types].xml"].
Proof.
  change (lit "/[Content_Types].xml") with (slash :: join_slash [lit "[Content_Types].xml"]).
  apply (parse_descriptor_part td [lit "[Content_Types].xml"] content_types_xml).
  unfold descriptor_parts. rewrite !elem_of_cons. auto.
Qed.

Lemma parse_main_rels td :
  parse (td ++ lit "/_rels/.rels") = parse td ++ [u "_rels"; u ".rels"].
Proof.
  change (lit "/_rels/.rels") with (slash :: join_slash [u "_rels"; u ".rels"]).
  apply (parse_descriptor_part td [u "_rels"; u ".rels"] main_rels_xml).
  unfold descriptor_parts. rewrite !elem_of_cons. auto.
Qed.

Lemma parse_workbook td :
  parse (td ++ lit "/xl/workbook.xml") = parse td ++ [u "xl"; u "workbook.xml"].
Proof.
  change (lit "/xl/workbook.xml") with (slash :: join_slash [u "xl"; u "workbook.xml"]).
  apply (parse_descriptor_part td [u "xl"; u "workbook.xml"] workbook_xml).
  unfold descriptor_parts. rewrite !elem_of_cons. auto.
Qed.

Lemma parse_workbook_rels td :
  parse (td ++ lit "/xl/_rels/workbook.xml.rels")
  = parse td ++ [u "xl"; u "_rels"; u "workbook.xml.rels"].
Proof.
  change (lit "/xl/_rels/workbook.xml.rels") with (slash :: join_slash [u "xl"; u "_rels"; u "workbook.xml.rels"]).
  apply (parse_descriptor_part td [u "xl"; u "_rels"; u "workbook.xml.rels"] workbook_rels_xml).
  unfold descriptor_parts. rewrite !elem_of_cons. auto 6.
Qed.

(** What a successful [save] leaves behind: directories may have been
    created, the parts have been staged over whatever lay in the staging
    directory, every file found there has been archived, and everything
    below the staging directory has been removed. *)
Lemma save_ok w σ σ' :
  save w σ = (σ', Ok ()) →
  ∃ σd docs,
    (∀ p d, σd !! p = Some (File d) ↔ σ !! p = Some (File d))
    ∧ Forall2 (λ sh doc, worksheet_xml w sh = Ok doc) (sheets w) docs
    ∧ let staged :=
        <[target w := File (Zip [])]> (stage (staging w) σd (parts docs)) in
      σ' = filter (λ '(p, _), ¬ staging w `prefix_of` p)
             (<[target w :=
                  File (Zip (entry_of <$> walk (staging w) staged))]> staged).
Proof.
  unfold save.
  intros (σ1 & [] & H1 & H)%bind_ok.
  apply bind_ok in H as (σ2 & [] & H2 & H).
  apply bind_ok in H as (σ3 & [] & H3 & H).
  apply bind_ok in H as (σ4 & [] & H4 & H).
  apply bind_ok in H as (σ5 & [] & H5 & H).
  apply bind_ok in H as (σ6 & [] & H6%write_text_ok & H).
  apply bind_ok in H as (σ7 & [] & H7%write_text_ok & H).
  apply bind_ok in H as (σ8 & [] & H8%write_text_ok & H).
  apply bind_ok in H as (σ9 & [] & H9%write_text_ok & H).
  apply bind_ok in H as (σ10 & [] & (docs & Hdocs & H10)%sheets_loop & H).
  apply bind_ok in H as (σ11 & zf & [-> H11]%create_ok & H).
  apply bind_ok in H as (σ12 & σ12' & [= <- <-] & H).
  apply bind_ok in H as (σ13 & [] & H13 & H).
  apply rmtree_ok in H.
  rewrite parse_content_types in H6. rewrite parse_main_rels in H7.
  rewrite parse_workbook in H8. rewrite parse_workbook_rels in H9.
  fold (staging w) in *. fold (target w) in *.
  exists σ5, docs. split_and!; [|done|].
  - intros p d.
    rewrite (makedirs_files _ _ _ _ p d H5), (makedirs_files _ _ _ _ p d H4),
      (makedirs_files _ _ _ _ p d H3), (makedirs_files _ _ _ _ p d H2).
    apply (makedirs_files _ _ _ _ p d H1).
  - cbn zeta.
    assert (σ11 = <[target w := File (Zip [])]>
                    (stage (staging w) σ5 (parts docs))) as E11.
    { unfold parts. rewrite stage_app.
      rewrite H11, H10, H9, H8, H7, H6. reflexivity. }
    rewrite <- E11.
    rewrite (zip_loop _ _ σ11 []) in H13.
    2:{ rewrite E11. apply lookup_insert_eq. }
    injection H13 as <-. exact H.
Qed.

Lemma save_archive w σ σ' :
  save w σ = (σ', Ok ()) →
  ∃ σd docs es,
    (∀ p d, σd !! p = Some (File d) ↔ σ !! p = Some (File d))
    ∧ Forall2 (λ sh doc, worksheet_xml w sh = Ok doc) (sheets w) docs
    ∧ archive_of w σ' = Some es
    ∧ no_entry_under (staging w) σ'
    ∧ ∃ fl, es = entry_of <$> fl ∧ NoDup fl
        ∧ ∀ rel d, (rel, d) ∈ fl
             ↔ stage (staging w) σd (parts docs) !! (staging w ++ rel)
               = Some (File d).
Proof.
  intros (σd & docs & Hfiles & Hdocs & ->)%save_ok.
  set (staged := <[target w := File (Zip [])]> _).
  exists σd, docs, (entry_of <$> walk (staging w) staged).
  split_and!; [done|done|..].
  - unfold archive_of. rewrite map_lookup_filter, lookup_insert_eq. cbn.
    rewrite option_guard_True; [done|apply staging_not_prefix_target].
  - intros p Hp. apply map_lookup_filter_None. right. intros n _ Hn. by apply Hn.
  - exists (walk (staging w) staged). split_and!; [done|apply NoDup_walk|].
    intros rel d. rewrite elem_of_walk. unfold staged.
    rewrite lookup_insert_ne; [done|].
    intros Heq. apply (staging_not_prefix_target w). rewrite Heq. by exists rel.
Qed.

Lemma parts_lookup docs k doc :
  docs !! k = Some doc →
  (sheet_part_path (Z.of_nat k + 1), doc) ∈ parts docs.
Proof.
  intros Hk. unfold parts, sheet_parts. apply elem_of_app. right.
  apply list_elem_of_lookup. exists k.
  apply lookup_zip_with_Some. eexists _, _. split_and!; [done| |done].
  rewrite list_lookup_fmap, lookup_seqZ_lt.
  - cbn. do 2 f_equal. lia.
  - apply lookup_lt_Some in Hk. lia.
Qed.

Lemma entry_in_archive (fl : list (path * data)) rel d :
  (rel, d) ∈ fl → (join_slash rel, d) ∈ entry_of <$> fl.
Proof. intros H. apply list_elem_of_fmap. by exists (rel, d). Qed.

(** C9.  [add_sheet] returns without checks: the sheet goes to the end of
    the list and the sheets already there stay as they are.  After a
    successful [save], the archive holds, for the sheet at position [k]
    (from 0) of the list, the entry [xl/worksheets/sheet(k+1).xml] with the
    document built from that sheet. *)
Theorem add_sheet_then_save w nm hs rs :
  let w' := add_sheet w nm hs rs in
  sheets w' = sheets w ++ [mk_sheet nm hs rs]
  ∧ filename w' = filename w
  ∧ (∀ k sh, sheets w !! k = Some sh → sheets w' !! k = Some sh)
  ∧ sheets w' !! length (sheets w) = Some (mk_sheet nm hs rs)
  ∧ ∀ σ σ', save w' σ = (σ', Ok ()) →
      ∃ es, archive_of w' σ' = Some es
        ∧ ∀ k sh, sheets w' !! k = Some sh →
            ∃ doc, worksheet_xml w' sh = Ok doc
                   ∧ (sheet_name (Z.of_nat k + 1), Text doc) ∈ es.
Proof.
  intros w'. split_and!; [done|done|..].
  - intros k sh Hk. unfold w', add_sheet. cbn [sheets].
    by apply lookup_app_l_Some.
  - unfold w', add_sheet. cbn [sheets]. by rewrite list_lookup_middle.
  - intros σ σ' (σd & docs & es & _ & Hdocs & Hes & _ & fl & -> & _ & Hfl)%save_archive.
    exists (entry_of <$> fl). split; [done|]. intros k sh Hk.
    destruct (Forall2_lookup_l _ _ _ _ _ Hdocs Hk) as (doc & Hdoc & Hsh).
    exists doc. split; [done|].
    rewrite <- sheet_name_join. apply entry_in_archive, Hfl.
    apply lookup_stage_part; [apply NoDup_parts|by apply parts_lookup].
Qed.

(** C7.  Whatever sheets are registered, and whatever their names, a
    successful [save] archives the same four descriptor parts.  The
    content-types manifest has two overrides, the workbook and worksheet
    part 1, and names no other worksheet; the workbook descriptor has one
    sheet entry, named Sheet1 with relationship id 1; the workbook
    relationships have one relationship, to [worksheets/sheet1.xml]. *)
Theorem descriptors_are_constant w σ σ' :
  save w σ = (σ', Ok ()) →
  (∃ es, archive_of w σ' = Some es
     ∧ (lit "[Content_Types].xml", Text content_types_xml) ∈ es
     ∧ (lit "_rels/.rels", Text main_rels_xml) ∈ es
     ∧ (lit "xl/workbook.xml", Text workbook_xml) ∈ es
     ∧ (lit "xl/_rels/workbook.xml.rels", Text workbook_rels_xml) ∈ es)
  ∧ occurs (lit "<Override ") content_types_xml = 2%nat
  ∧ occurs (lit "PartName=`/xl/workbook.xml`") content_types_xml = 1%nat
  ∧ occurs (lit "PartName=`/xl/worksheets/sheet1.xml`") content_types_xml = 1%nat
  ∧ occurs (lit "/xl/worksheets/") content_types_xml = 1%nat
  ∧ occurs (lit "<sheet ") workbook_xml = 1%nat
  ∧ occurs (lit "<sheet name=`Sheet1` sheetId=`1` r:id=`rId1`/>") workbook_xml
    = 1%nat
  ∧ occurs (lit "<Relationship ") workbook_rels_xml = 1%nat
  ∧ occurs (lit "Id=`rId1`") workbook_rels_xml = 1%nat
  ∧ occurs (lit "Target=`worksheets/sheet1.xml`") workbook_rels_xml = 1%nat.
Proof.
  intros (σd & docs & es & _ & _ & Hes & _ & fl & -> & _ & Hfl)%save_archive.
  split; [|split_and!; by vm_compute].
  exists (entry_of <$> fl).
  assert (∀ rel c, (rel, c) ∈ descriptor_parts →
            (join_slash rel, Text c) ∈ entry_of <$> fl) as Hd.
  { intros rel c Hin. apply entry_in_archive, Hfl.
    apply lookup_stage_part; [apply NoDup_parts|].
    unfold parts. apply elem_of_app. by left. }
  split_and!; [done|..].
  - apply (Hd [lit "[Content_Types].xml"]).
    unfold descriptor_parts. rewrite !elem_of_cons. auto.
  - apply (Hd [u "_rels"; u ".rels"]).
    unfold descriptor_parts. rewrite !elem_of_cons. auto.
  - apply (Hd [u "xl"; u "workbook.xml"]).
    unfold descriptor_parts. rewrite !elem_of_cons. auto.
  - apply (Hd [u "xl"; u "_rels"; u "workbook.xml.rels"]).
    unfold descriptor_parts. rewrite !elem_of_cons. auto 6.
Qed.

Lemma staged_files w σ σd docs rel d :
  no_file_under (staging w) σ →
  (∀ p d, σd !! p = Some (File d) ↔ σ !! p = Some (File d)) →
  stage (staging w) σd (parts docs) !! (staging w ++ rel) = Some (File d)
  ↔ (rel, d) ∈ as_file <$> parts docs.
Proof.
  intros Hnone Hfiles. rewrite list_elem_of_fmap. split.
  - intros Hl. destruct (decide (rel ∈ (parts docs).*1)) as [Hin|Hout].
    + apply list_elem_of_fmap in Hin as ([rel' c] & -> & Hin).
      rewrite (lookup_stage_part _ _ _ _ c) in Hl
        by (apply NoDup_parts || done).
      injection Hl as <-. by exists (rel', c).
    + rewrite lookup_stage_other in Hl.
      * apply Hfiles in Hl. by apply Hnone in Hl; [|exists rel].
      * intros rel' Hrel' Heq%app_inv_head. by subst.
  - intros ([rel' c] & [= -> ->] & Hin).
    apply lookup_stage_part; [apply NoDup_parts|done].
Qed.

Lemma NoDup_as_file_parts docs : NoDup (as_file <$> parts docs).
Proof.
  apply (NoDup_fmap_1 fst). rewrite <- list_fmap_compose.
  rewrite (list_fmap_ext (fst ∘ as_file) fst (parts docs))
    by (by intros ? [] ?).
  apply NoDup_parts.
Qed.

Lemma part_names docs :
  (entry_of <$> (as_file <$> parts docs)).*1
  = descriptor_names ++ (sheet_name <$> seqZ 1 (Z.of_nat (length docs))).
Proof.
  rewrite <- !list_fmap_compose.
  rewrite (list_fmap_ext (fst ∘ entry_of ∘ as_file) (join_slash ∘ fst)
             (parts docs)) by (by intros ? [] ?).
  rewrite list_fmap_compose. unfold parts.
  rewrite fmap_app, fst_sheet_parts, fmap_app.
  f_equal. rewrite <- list_fmap_compose. by apply list_fmap_ext.
Qed.

(** C6 (as the code has it).  When no file lies under the staging path
    before the call, a successful [save] leaves an archive whose entry
    names are the four descriptor parts and [xl/worksheets/sheetK.xml] for
    [K] from 1 to the number of sheets, each once and nothing else: five
    entries for one sheet, four for none. *)
Theorem archive_entry_names w σ σ' :
  no_file_under (staging w) σ →
  save w σ = (σ', Ok ()) →
  ∃ es, archive_of w σ' = Some es
    ∧ es.*1 ≡ₚ descriptor_names
               ++ (sheet_name <$> seqZ 1 (Z.of_nat (length (sheets w))))
    ∧ (length (sheets w) = 1%nat →
       es.*1 ≡ₚ [ lit "[Content_Types].xml"; lit "_rels/.rels";
                  lit "xl/workbook.xml"; lit "xl/_rels/workbook.xml.rels";
                  lit "xl/worksheets/sheet1.xml" ])
    ∧ (length (sheets w) = 0%nat →
       es.*1 ≡ₚ [ lit "[Content_Types].xml"; lit "_rels/.rels";
                  lit "xl/workbook.xml"; lit "xl/_rels/workbook.xml.rels" ]).
Proof.
  intros Hnone
    (σd & docs & es & Hfiles & Hdocs & Hes & _ & fl & -> & Hnd & Hfl)%save_archive.
  exists (entry_of <$> fl). split; [done|].
  assert (fl ≡ₚ as_file <$> parts docs) as Hperm.
  { apply NoDup_Permutation; [done|apply NoDup_as_file_parts|].
    intros [rel d]. rewrite Hfl. by apply (staged_files w σ). }
  assert ((entry_of <$> fl).*1
          ≡ₚ descriptor_names
             ++ (sheet_name <$> seqZ 1 (Z.of_nat (length (sheets w))))) as Hnames.
  { rewrite Hperm, part_names. by rewrite (Forall2_length _ _ _ Hdocs). }
  split_and!; [done|..]; intros Hlen; rewrite Hlen in Hnames; exact Hnames.
Qed.

Lemma save_ok_removes_staging w σ σ' :
  save w σ = (σ', Ok ()) → no_entry_under (staging w) σ'.
Proof. by intros (? & ? & ? & _ & _ & _ & H & _)%save_archive. Qed.

(** C6 (as claimed) fails: [save] accepts a staging directory that already
    exists and archives whatever it finds there.  With one sheet and a
    leftover file [old.txt] in the staging directory, the archive has a
    sixth entry. *)
Lemma stale_file_is_archived :
  ¬ (∀ w σ σ' es,
       length (sheets w) = 1%nat →
       save w σ = (σ', Ok ()) →
       archive_of w σ' = Some es →
       ∀ nm, nm ∈ es.*1
             ↔ nm ∈ [ lit "[Content_Types].xml"; lit "_rels/.rels";
                      lit "xl/workbook.xml"; lit "xl/_rels/workbook.xml.rels";
                      lit "xl/worksheets/sheet1.xml" ]).
Proof.
  intros H.
  set (w := data_sheet_writer (u "out.xlsx")).
  assert (save w stale_staging = ((save w stale_staging).1, Ok ())) as Hs
    by (vm_compute; reflexivity).
  destruct (archive_of w (save w stale_staging).1) as [es|] eqn:Ees;
    [|by vm_compute in Ees].
  destruct (H w stale_staging _ es eq_refl Hs Ees (u "old.txt")) as [Hin _].
  assert (u "old.txt" ∈ es.*1) as Hold.
  { vm_compute in Ees. injection Ees as <-.
    by apply (bool_decide_unpack _); vm_compute. }
  apply Hin in Hold. revert Hold.
  by apply (bool_decide_unpack _); vm_compute.
Qed.

(** C3 (what the code does).  The staging directory is removed by the last
    statement of [save] only.  When a part cannot be written (here a header
    that is a lone surrogate, which has no encoding), or the archive cannot
    be created (here the target name is a directory), [save] raises and the
    staging directory, with the parts written so far, stays on disk. *)
Theorem staging_left_behind_on_error :
  let w1 := surrogate_writer in
  let w2 := data_sheet_writer (u "report") in
  (save w1 ∅).2 = Err UnicodeEncodeError
  ∧ (save w1 ∅).1 !! staging w1 = Some Dir
  ∧ (save w1 ∅).1 !! (staging w1 ++ [u "xl"; u "workbook.xml"])
    = Some (File (Text workbook_xml))
  ∧ (save w2 target_is_dir).2 = Err IsADirectoryError
  ∧ (save w2 target_is_dir).1 !! staging w2 = Some Dir
  ∧ (save w2 target_is_dir).1 !! (staging w2 ++ sheet_part_path 1)
    = Some (File (Text (worksheet_doc (mk_sheet (PStr (u "Data"))
                          [PStr (u "A"); PStr (u "B")]
                          [[PInt 1; PStr (u "x")]; [PInt 2; PStr (u "y")]])))).
Proof. cbv zeta. split_and!; vm_compute; reflexivity. Qed.

(** ** The properties at work on the sample workbook *)

Lemma worksheet_rows_and_cells_witness :
  let w := data_sheet_writer (u "out.xlsx") in
  let sh := mk_sheet (PStr (u "Data")) [PStr (u "A"); PStr (u "B")]
              [[PInt 1; PStr (u "x")]; [PInt 2; PStr (u "y")]] in
  worksheet_xml w sh = Ok (worksheet_doc sh)
  ∧ occurs row_tag (worksheet_doc sh) = 3%nat
  ∧ occurs c_tag (worksheet_doc sh) = 6%nat.
Proof.
  intros w sh.
  assert (worksheet_xml w sh = Ok (worksheet_doc sh)) as Hdoc
    by (vm_compute; reflexivity).
  split; [exact Hdoc|].
  destruct (worksheet_rows_and_cells w sh (worksheet_doc sh) Hdoc)
    as (_ & _ & _ & _ & _ & _ & Hrow & Hc).
  split; [exact Hrow|exact Hc].
Defined.

Lemma archive_entry_names_witness :
  let w := data_sheet_writer (u "out.xlsx") in
  no_file_under (staging w) ∅
  ∧ save w ∅ = ((save w ∅).1, Ok ())
  ∧ ∃ es, archive_of w (save w ∅).1 = Some es
      ∧ es.*1 ≡ₚ [ lit "[Content_Types].xml"; lit "_rels/.rels";
                   lit "xl/workbook.xml"; lit "xl/_rels/workbook.xml.rels";
                   lit "xl/worksheets/sheet1.xml" ].
Proof.
  intros w.
  assert (no_file_under (staging w) ∅) as Hnone
    by (intros p d _; rewrite lookup_empty; discriminate).
  assert (save w ∅ = ((save w ∅).1, Ok ())) as Hs by (vm_compute; reflexivity).
  split; [exact Hnone|]. split; [exact Hs|].
  destruct (archive_entry_names w ∅ _ Hnone Hs) as (es & Hes & _ & Hone & _).
  exists es. split; [exact Hes|]. apply Hone. reflexivity.
Defined.

Lemma descriptors_are_constant_witness :
  let w := data_sheet_writer (u "out.xlsx") in
  save w ∅ = ((save w ∅).1, Ok ())
  ∧ ∃ es, archive_of w (save w ∅).1 = Some es
      ∧ (lit "xl/workbook.xml", Text workbook_xml) ∈ es.
Proof.
  intros w.
  assert (save w ∅ = ((save w ∅).1, Ok ())) as Hs by (vm_compute; reflexivity).
  split; [exact Hs|].
  destruct (descriptors_are_constant w ∅ _ Hs)
    as ((es & Hes & _ & _ & Hwb & _) & _).
  exists es. split; [exact Hes|exact Hwb].
Defined.

Lemma add_sheet_then_save_witness :
  let w := add_sheet (data_sheet_writer (u "out.xlsx")) (PStr (u "More"))
             [PStr (u "K")] [[PBool true]] in
  save w ∅ = ((save w ∅).1, Ok ())
  ∧ ∃ es doc, archive_of w (save w ∅).1 = Some es
      ∧ worksheet_xml w (mk_sheet (PStr (u "More")) [PStr (u "K")] [[PBool true]])
        = Ok doc
      ∧ (lit "xl/worksheets/sheet2.xml", Text doc) ∈ es.
Proof.
  intros w.
  assert (save w ∅ = ((save w ∅).1, Ok ())) as Hs by (vm_compute; reflexivity).
  split; [exact Hs|].
  destruct (add_sheet_then_save (data_sheet_writer (u "out.xlsx"))
              (PStr (u "More")) [PStr (u "K")] [[PBool true]])
    as (_ & _ & _ & _ & Hsave).
  destruct (Hsave ∅ _ Hs) as (es & Hes & Hall).
  destruct (Hall 1%nat _ eq_refl) as (doc & Hdoc & Hin).
  exists es, doc. split; [exact Hes|]. split; [exact Hdoc|exact Hin].
Defined.

(** ** When [save] succeeds *)

Lemma makedirs_eq name : name ≠ [] → makedirs name = mkdirs [] (parse name).
Proof. by destruct name. Qed.

Lemma mkdirs_fresh done c todo σ :
  σ !! (done ++ [c]) = None →
  mkdirs done (c :: todo) σ = mkdirs (done ++ [c]) todo (<[done ++ [c] := Dir]> σ).
Proof. intros H. cbn [mkdirs]. by rewrite H. Qed.

Lemma mkdirs_dir done c todo σ :
  σ !! (done ++ [c]) = Some Dir →
  mkdirs done (c :: todo) σ = mkdirs (done ++ [c]) todo σ.
Proof. intros H. cbn [mkdirs]. by rewrite H. Qed.

Lemma parse_plain_name f :
  Forall (λ c, c ≠ slash) f → plain f → parse f = [f].
Proof.
  intros Hf Hp. unfold parse. rewrite split_slash_plain by done.
  cbn [foldl]. by rewrite norm_step_plain.
Qed.

Lemma staging_plain_name w :
  Forall (λ c, c ≠ slash) (filename w) →
  staging w = [filename w ++ lit "_temp"].
Proof.
  intros Hf. unfold staging. apply parse_plain_name.
  - apply Forall_app. split; [done|by apply slash_free_lit].
  - split_and!; intros H%(f_equal length); rewrite length_app in H;
      cbn in H; lia.
Qed.

Lemma bind_step {A B} (m : io A) (k : A → io B) σ σ1 a :
  m σ = (σ1, Ok a) → (m ≫= k) σ = k a σ1.
Proof. intros H. unfold mbind, io_bind. by rewrite H. Qed.

Ltac look :=
  cbn [app];
  repeat first [ rewrite lookup_insert_eq
               | rewrite lookup_insert_ne by (by intros [=]) ].

Ltac mkdirs_run Hnone :=
  repeat first
    [ rewrite mkdirs_dir by (look; done)
    | rewrite mkdirs_fresh by (look; apply Hnone; by eexists) ];
  cbn [app]; reflexivity.

(** The five [makedirs] calls on a fresh staging directory. *)
Lemma makedirs_phase td t σ (k : io unit) :
  td ≠ [] → parse td = [t] → no_entry_under [t] σ →
  (makedirs td;;
   makedirs (td ++ lit "/_rels");;
   makedirs (td ++ lit "/xl");;
   makedirs (td ++ lit "/xl/_rels");;
   makedirs (td ++ lit "/xl/worksheets");; k) σ
  = k (<[ [t; u "xl"; u "worksheets"] := Dir ]>
         (<[ [t; u "xl"; u "_rels"] := Dir ]>
            (<[ [t; u "xl"] := Dir ]>
               (<[ [t; u "_rels"] := Dir ]> (<[ [t] := Dir ]> σ))))).
Proof.
  intros Htd Ht Hnone.
  assert (∀ rel : pystr, td ++ rel ≠ []) as Hne
    by (intros rel H%app_eq_nil; by destruct H).
  assert (parse (td ++ lit "/_rels") = [t; u "_rels"]) as E2.
  { change (lit "/_rels") with (slash :: join_slash [u "_rels"]).
    rewrite parse_sub, Ht; [done|done|..].
    - apply Forall_cons; split; [by apply slash_free_lit|by apply Forall_nil].
    - apply Forall_cons; split; [by vm_compute|by apply Forall_nil]. }
  assert (parse (td ++ lit "/xl") = [t; u "xl"]) as E3.
  { change (lit "/xl") with (slash :: join_slash [u "xl"]).
    rewrite parse_sub, Ht; [done|done|..].
    - apply Forall_cons; split; [by apply slash_free_lit|by apply Forall_nil].
    - apply Forall_cons; split; [by vm_compute|by apply Forall_nil]. }
  assert (parse (td ++ lit "/xl/_rels") = [t; u "xl"; u "_rels"]) as E4.
  { change (lit "/xl/_rels") with (slash :: join_slash [u "xl"; u "_rels"]).
    rewrite parse_sub, Ht; [done|done|..].
    - repeat (apply Forall_cons; split; [by apply slash_free_lit|]).
      by apply Forall_nil.
    - repeat (apply Forall_cons; split; [by vm_compute|]). by apply Forall_nil. }
  assert (parse (td ++ lit "/xl/worksheets") = [t; u "xl"; u "worksheets"]) as E5.
  { change (lit "/xl/worksheets")
      with (slash :: join_slash [u "xl"; u "worksheets"]).
    rewrite parse_sub, Ht; [done|done|..].
    - repeat (apply Forall_cons; split; [by apply slash_free_lit|]).
      by apply Forall_nil.
    - repeat (apply Forall_cons; split; [by vm_compute|]). by apply Forall_nil. }
  rewrite (bind_step _ _ _ (<[ [t] := Dir ]> σ) ()).
  2:{ rewrite makedirs_eq, Ht by done. mkdirs_run Hnone. }
  rewrite (bind_step _ _ _ (<[ [t; u "_rels"] := Dir ]> (<[ [t] := Dir ]> σ)) ()).
  2:{ rewrite makedirs_eq, E2 by done. mkdirs_run Hnone. }
  rewrite (bind_step _ _ _
             (<[ [t; u "xl"] := Dir ]>
                (<[ [t; u "_rels"] := Dir ]> (<[ [t] := Dir ]> σ))) ()).
  2:{ rewrite makedirs_eq, E3 by done. mkdirs_run Hnone. }
  rewrite (bind_step _ _ _
             (<[ [t; u "xl"; u "_rels"] := Dir ]>
                (<[ [t; u "xl"] := Dir ]>
                   (<[ [t; u "_rels"] := Dir ]> (<[ [t] := Dir ]> σ)))) ()).
  2:{ rewrite makedirs_eq, E4 by done. mkdirs_run Hnone. }
  rewrite (bind_step _ _ _
             (<[ [t; u "xl"; u "worksheets"] := Dir ]>
                (<[ [t; u "xl"; u "_rels"] := Dir ]>
                   (<[ [t; u "xl"] := Dir ]>
                      (<[ [t; u "_rels"] := Dir ]> (<[ [t] := Dir ]> σ))))) ()).
  2:{ rewrite makedirs_eq, E5 by done. mkdirs_run Hnone. }
  reflexivity.
Qed.

Lemma ready_after_makedirs t σ :
  no_entry_under [t] σ →
  ready [t]
    (<[ [t; u "xl"; u "worksheets"] := Dir ]>
       (<[ [t; u "xl"; u "_rels"] := Dir ]>
          (<[ [t; u "xl"] := Dir ]>
             (<[ [t; u "_rels"] := Dir ]> (<[ [t] := Dir ]> σ))))).
Proof.
  intros Hnone. split.
  - intros rel. unfold dir_rels. rewrite !elem_of_cons, elem_of_nil.
    intros [->|[->|[->|[->|[->|[]]]]]]; look; done.
  - intros rel. cbn [app]. unfold dir_rels.
    rewrite !elem_of_cons, !lookup_insert.
    repeat (case_decide as E; [injection E as <-; auto 8|clear E]).
    rewrite Hnone by (by exists rel). discriminate.
Qed.

Lemma ready_insert_file top σ rel d :
  ready top σ → rel ∉ dir_rels → ready top (<[top ++ rel := File d]> σ).
Proof.
  intros [Hdirs Honly] Hrel. split.
  - intros r Hr. rewrite lookup_insert_ne; [by apply Hdirs|].
    intros ->%app_inv_head. done.
  - intros r. rewrite lookup_insert. case_decide; [discriminate|apply Honly].
Qed.

Lemma ready_insert_outside top σ q n :
  ready top σ → ¬ top `prefix_of` q → ready top (<[q := n]> σ).
Proof.
  intros [Hdirs Honly] Hq.
  assert (∀ r, q ≠ top ++ r) as Hne by (intros r ->; apply Hq; by exists r).
  split.
  - intros r Hr. rewrite lookup_insert_ne by done. by apply Hdirs.
  - intros r. rewrite lookup_insert_ne by done. apply Honly.
Qed.

Lemma create_succeeds name d σ p :
  parse name = p → p ≠ [] →
  removelast p = [] ∨ σ !! removelast p = Some Dir →
  σ !! p ≠ Some Dir →
  create name d σ = (<[p := File d]> σ, Ok p).
Proof.
  intros Hp Hne Hparent Hnode. unfold create.
  destruct name as [|c name]; [by subst p|].
  rewrite Hp. destruct p as [|p0 p]; [done|].
  assert (match removelast (p0 :: p) with
          | [] => Some Dir
          | _ :: _ => σ !! removelast (p0 :: p)
          end = Some Dir) as ->.
  { destruct Hparent as [->| H]; [done|].
    by destruct (removelast (p0 :: p)). }
  by destruct (σ !! (p0 :: p)) as [[|?]|].
Qed.

Lemma write_text_succeeds name content σ top rel :
  parse name = top ++ rel → rel ≠ [] → removelast rel ∈ dir_rels →
  rel ∉ dir_rels → encodable content → ready top σ →
  write_text name content σ = (<[top ++ rel := File (Text content)]> σ, Ok ())
  ∧ ready top (<[top ++ rel := File (Text content)]> σ).
Proof.
  intros Hp Hrel Hparent Hnew Henc Hready.
  split; [|by apply ready_insert_file].
  destruct Hready as [Hdirs Honly]. unfold write_text.
  rewrite (bind_step _ _ _ (<[top ++ rel := File (Text [])]> σ) (top ++ rel)).
  - unfold encodable in Henc. rewrite Henc. by rewrite insert_insert_eq.
  - apply create_succeeds; [done|..].
    + intros [_ ?]%app_eq_nil. done.
    + right. rewrite removelast_app by done. by apply Hdirs.
    + intros H%Honly. done.
Qed.

Lemma sheet_part_not_dir k : sheet_part_path k ∉ dir_rels.
Proof.
  unfold dir_rels. rewrite !elem_of_cons, elem_of_nil.
  intros [H|[H|[H|[H|[H|[]]]]]]; discriminate H.
Qed.

Lemma sheets_loop_succeeds w td top shs i σ :
  parse td = top → ready top σ →
  Forall (λ sh, ∃ doc, worksheet_xml w sh = Ok doc ∧ encodable doc) shs →
  ∃ σ', io_for (enumerate_from i shs)
          (λ '(i, sheet), _create_worksheet w td (i + 1) sheet) σ = (σ', Ok ())
        ∧ ready top σ'
        ∧ ∀ q, ¬ top `prefix_of` q → σ' !! q = σ !! q.
Proof.
  intros Htd Hready Hall. revert i σ Hready.
  induction Hall as [|sh shs (doc & Hdoc & Henc) _ IH]; intros i σ Hready.
  - exists σ. by split_and!.
  - destruct (write_text_succeeds
                (td ++ lit "/xl/worksheets/sheet" ++ fmt (PInt (i + 1))
                    ++ lit ".xml") doc σ top (sheet_part_path (i + 1)))
      as [Hw Hr]; [..|done|done|].
    { unfold fmt. cbn [py_str]. by rewrite parse_sheet_part, Htd. }
    { done. }
    { unfold dir_rels. rewrite !elem_of_cons. auto 8. }
    { apply sheet_part_not_dir. }
    destruct (IH (i + 1) _ Hr) as (σ' & Hloop & Hr' & Hout).
    exists σ'. split_and!; [|done|].
    + cbn [io_for enumerate_from].
      rewrite (bind_step _ _ _
                 (<[top ++ sheet_part_path (i + 1) := File (Text doc)]> σ) ());
        [exact Hloop|].
      unfold _create_worksheet.
      rewrite (bind_step _ _ _ σ doc) by (unfold lift; by rewrite Hdoc).
      exact Hw.
    + intros q Hq. rewrite Hout by done. apply lookup_insert_ne.
      intros <-. apply Hq. by eexists.
Qed.

(** [save] completes when the target is a plain file name in the working
    directory that is not taken by a directory, nothing exists at the
    staging path, every sheet can be lettered, and every document can be
    encoded. *)
Lemma save_succeeds w σ :
  Forall (λ c, c ≠ slash) (filename w) → plain (filename w) →
  no_entry_under (staging w) σ →
  σ !! target w ≠ Some Dir →
  Forall (λ sh, ∃ doc, worksheet_xml w sh = Ok doc ∧ encodable doc) (sheets w) →
  ∃ σ', save w σ = (σ', Ok ()).
Proof.
  intros Hslash Hplain Hnone Htarget Hsheets.
  pose proof (staging_not_prefix_target w) as Hsep.
  unfold target in Htarget, Hsep. rewrite parse_plain_name in Htarget, Hsep by done.
  rewrite staging_plain_name in Hnone, Hsep by done.
  set (td := filename w ++ lit "_temp") in *.
  assert (parse td = [td]) as Etd by (by apply staging_plain_name).
  assert (td ≠ []) as Hne.
  { intros H%(f_equal length). unfold td in H. rewrite length_app in H.
    cbn in H. lia. }
  unfold save. cbv zeta. fold td.
  rewrite (makedirs_phase td td σ) by done.
  pose proof (ready_after_makedirs td σ Hnone) as Hr5.
  set (σ5 := <[ [td; u "xl"; u "worksheets"] := Dir ]> _) in *.
  destruct (write_text_succeeds (td ++ lit "/[Content_Types].xml")
              content_types_xml σ5 [td] [lit "[Content_Types].xml"])
    as [H6 Hr6]; [by rewrite parse_content_types, Etd|done
                 |by apply (bool_decide_unpack _); vm_compute
                 |by apply (bool_decide_unpack _); vm_compute
                 |by vm_compute|done|].
  set (σ6 := <[ [td] ++ [lit "[Content_Types].xml"] := _ ]> σ5) in *.
  destruct (write_text_succeeds (td ++ lit "/_rels/.rels")
              main_rels_xml σ6 [td] [u "_rels"; u ".rels"])
    as [H7 Hr7]; [by rewrite parse_main_rels, Etd|done
                 |by apply (bool_decide_unpack _); vm_compute
                 |by apply (bool_decide_unpack _); vm_compute
                 |by vm_compute|done|].
  set (σ7 := <[ [td] ++ [u "_rels"; u ".rels"] := _ ]> σ6) in *.
  destruct (write_text_succeeds (td ++ lit "/xl/workbook.xml")
              workbook_xml σ7 [td] [u "xl"; u "workbook.xml"])
    as [H8 Hr8]; [by rewrite parse_workbook, Etd|done
                 |by apply (bool_decide_unpack _); vm_compute
                 |by apply (bool_decide_unpack _); vm_compute
                 |by vm_compute|done|].
  set (σ8 := <[ [td] ++ [u "xl"; u "workbook.xml"] := _ ]> σ7) in *.
  destruct (write_text_succeeds (td ++ lit "/xl/_rels/workbook.xml.rels")
              workbook_rels_xml σ8 [td] [u "xl"; u "_rels"; u "workbook.xml.rels"])
    as [H9 Hr9]; [by rewrite parse_workbook_rels, Etd|done
                 |by apply (bool_decide_unpack _); vm_compute
                 |by apply (bool_decide_unpack _); vm_compute
                 |by vm_compute|done|].
  set (σ9 := <[ [td] ++ [u "xl"; u "_rels"; u "workbook.xml.rels"] := _ ]> σ8) in *.
  destruct (sheets_loop_succeeds w td [td] (sheets w) 0 σ9 Etd Hr9 Hsheets)
    as (σ10 & H10 & Hr10 & Hout).
  unfold _create_content_types, _create_main_rels, _create_workbook,
    _create_workbook_rels. cbv zeta.
  rewrite (bind_step _ _ _ _ _ H6), (bind_step _ _ _ _ _ H7),
    (bind_step _ _ _ _ _ H8), (bind_step _ _ _ _ _ H9).
  unfold enumerate. rewrite (bind_step _ _ _ _ _ H10).
  assert (σ10 !! [filename w] ≠ Some Dir) as Ht10.
  { rewrite Hout by done. unfold σ9, σ8, σ7, σ6, σ5.
    rewrite !lookup_insert_ne; [done|..];
      intros E; apply Hsep; rewrite <- E; by eexists. }
  rewrite (bind_step _ _ _ (<[ [filename w] := File (Zip []) ]> σ10) [filename w]).
  2:{ apply create_succeeds; [by apply parse_plain_name|done|by left|done]. }
  rewrite (bind_step _ _ _ (<[ [filename w] := File (Zip []) ]> σ10)
             (<[ [filename w] := File (Zip []) ]> σ10)) by done.
  erewrite bind_step by (apply (zip_loop _ _ _ []), lookup_insert_eq).
  unfold rmtree. rewrite Etd.
  rewrite !lookup_insert_ne by (intros E; apply Hsep; rewrite <- E; by eexists).
  destruct Hr10 as [Hdirs _].
  specialize (Hdirs [] ltac:(unfold dir_rels; apply list_elem_of_here)).
  rewrite app_nil_r in Hdirs. rewrite Hdirs. by eexists.
Qed.

(** * Further properties *)

(** ** Errors of the worksheet builder *)




(** ** What [save] leaves alone *)

Lemma keeps_ret {A : Type} (R : fs → fs → Prop) `{!Reflexive R} (a : A) :
  keeps R (mret a).
Proof. by intros σ σ' r [= <- _]. Qed.

Lemma keeps_raise {A : Type} (R : fs → fs → Prop) `{!Reflexive R} e :
  keeps R (@raise A e).
Proof. by intros σ σ' r [= <- _]. Qed.

Lemma keeps_lift {A : Type} (R : fs → fs → Prop) `{!Reflexive R} (x : result A) :
  keeps R (lift x).
Proof. by intros σ σ' r [= <- _]. Qed.

Lemma keeps_get_fs (R : fs → fs → Prop) `{!Reflexive R} : keeps R get_fs.
Proof. by intros σ σ' r [= <- _]. Qed.

Lemma keeps_bind {A B : Type} (R : fs → fs → Prop) `{!Transitive R}
    (m : io A) (k : A → io B) :
  keeps R m → (∀ a, keeps R (k a)) → keeps R (m ≫= k).
Proof.
  intros Hm Hk σ σ' r. unfold mbind, io_bind.
  destruct (m σ) as [σ1 [a|e]] eqn:E.
  - intros H. etrans; [by eapply Hm|by eapply Hk].
  - intros [= <- _]. by eapply Hm.
Qed.

Lemma keeps_io_for {A : Type} (R : fs → fs → Prop) `{!PreOrder R}
    (xs : list A) (body : A → io unit) :
  (∀ x, keeps R (body x)) → keeps R (io_for xs body).
Proof.
  intros Hbody. induction xs as [|x xs IH]; cbn [io_for].
  - apply keeps_ret, _.
  - apply keeps_bind; [apply _|apply Hbody|intros _; apply IH].
Qed.

#[local] Instance untouched_outside_preorder top tgt :
  PreOrder (untouched_outside top tgt).
Proof.
  split.
  - intros σ q _ _. by left.
  - intros σ1 σ2 σ3 H12 H23 q Hq Ht.
    destruct (H12 q Hq Ht) as [E12|(E1 & E2 & Hp & Hn)],
             (H23 q Hq Ht) as [E23|(E2' & E3 & Hp' & Hn')].
    + left. congruence.
    + right. split_and!; [congruence|done|done|done].
    + right. split_and!; [done|congruence|done|done].
    + congruence.
Qed.

Lemma untouched_insert top tgt σ p n :
  tgt = p ∨ top `prefix_of` p →
  untouched_outside top tgt σ (<[p := n]> σ).
Proof.
  intros Hp q Hq Ht. left. apply lookup_insert_ne.
  intros <-. destruct Hp; [by subst|done].
Qed.

Lemma keeps_mkdirs top tgt done todo :
  top `prefix_of` done ++ todo →
  keeps (untouched_outside top tgt) (mkdirs done todo).
Proof.
  revert done. induction todo as [|c todo IH]; intros done Htop.
  - by apply keeps_ret, _.
  - intros σ σ' r. cbn [mkdirs].
    assert (top `prefix_of` (done ++ [c]) ++ todo) as Htop'
      by by rewrite <- app_assoc.
    destruct (σ !! (done ++ [c])) as [[|d]|] eqn:E.
    + by apply IH.
    + by intros [= <- _].
    + intros H. etrans; [|by eapply IH].
      intros q Hq Ht. destruct (decide (q = done ++ [c])) as [->|Hne].
      * right. split_and!; [done|apply lookup_insert_eq| |by destruct done].
        destruct (prefix_weak_total (done ++ [c]) top (done ++ c :: todo));
          [|done|done|done].
        exists todo. by rewrite <- app_assoc.
      * left. by apply lookup_insert_ne.
Qed.

Lemma keeps_makedirs top tgt name :
  top `prefix_of` parse name →
  keeps (untouched_outside top tgt) (makedirs name).
Proof.
  intros Htop. unfold makedirs. destruct name.
  - by apply keeps_raise, _.
  - by apply keeps_mkdirs.
Qed.

Lemma keeps_create top tgt name d :
  tgt = parse name ∨ top `prefix_of` parse name →
  keeps (untouched_outside top tgt) (create name d).
Proof.
  intros Hp σ σ' r. unfold create. destruct name as [|c name].
  { by intros [= <- _]. }
  destruct (parse (c :: name)) as [|p0 p] eqn:E; [by intros [= <- _]|].
  destruct (match removelast (p0 :: p) with
            | [] => Some Dir
            | _ :: _ => σ !! removelast (p0 :: p)
            end) as [[|?]|]; try by intros [= <- _].
  destruct (σ !! (p0 :: p)) as [[|?]|]; intros [= <- _]; try done;
    by apply untouched_insert.
Qed.

Lemma keeps_bind_result {A B : Type} (R : fs → fs → Prop) `{!Transitive R}
    (m : io A) (k : A → io B) :
  keeps R m → (∀ a σ σ1, m σ = (σ1, Ok a) → keeps R (k a)) →
  keeps R (m ≫= k).
Proof.
  intros Hm Hk σ σ' r. unfold mbind, io_bind.
  destruct (m σ) as [σ1 [a|e]] eqn:E.
  - intros H. etrans; [by eapply Hm|by eapply Hk].
  - intros [= <- _]. by eapply Hm.
Qed.

Lemma keeps_write_text top tgt name content :
  top `prefix_of` parse name →
  keeps (untouched_outside top tgt) (write_text name content).
Proof.
  intros Hp. unfold write_text. apply keeps_bind_result; [apply _|..].
  - apply keeps_create. by right.
  - intros p σ0 σ1 [-> _]%create_ok σ σ' r.
    destruct (existsb surrogate content); intros [= <- _]; [done|].
    apply untouched_insert. by right.
Qed.

Lemma keeps_zip_write top tgt arc d :
  keeps (untouched_outside top tgt) (zip_write tgt arc d).
Proof.
  intros σ σ' r. unfold zip_write.
  destruct (σ !! tgt) as [[|[?|es]]|]; intros [= <- _]; try done.
  apply untouched_insert. by left.
Qed.

Lemma keeps_rmtree top tgt name :
  parse name = top → keeps (untouched_outside top tgt) (rmtree name).
Proof.
  intros <- σ σ' r. unfold rmtree.
  destruct (σ !! parse name) as [[|?]|]; intros [= <- _]; try done.
  intros q Hq _. left. rewrite map_lookup_filter.
  destruct (σ !! q) as [n|]; [|done]. cbn. by rewrite option_guard_True.
Qed.

Lemma prefix_app_same {A} (l k : list A) : l `prefix_of` l ++ k.
Proof. by exists k. Qed.

Lemma parse_dirs td :
  parse (td ++ lit "/_rels") = parse td ++ [u "_rels"]
  ∧ parse (td ++ lit "/xl") = parse td ++ [u "xl"]
  ∧ parse (td ++ lit "/xl/_rels") = parse td ++ [u "xl"; u "_rels"]
  ∧ parse (td ++ lit "/xl/worksheets") = parse td ++ [u "xl"; u "worksheets"].
Proof.
  split_and!.
  - change (lit "/_rels") with (slash :: join_slash [u "_rels"]).
    apply parse_sub; [done|..].
    + apply Forall_cons; split; [by apply slash_free_lit|by apply Forall_nil].
    + apply Forall_cons; split; [by vm_compute|by apply Forall_nil].
  - change (lit "/xl") with (slash :: join_slash [u "xl"]).
    apply parse_sub; [done|..].
    + apply Forall_cons; split; [by apply slash_free_lit|by apply Forall_nil].
    + apply Forall_cons; split; [by vm_compute|by apply Forall_nil].
  - change (lit "/xl/_rels") with (slash :: join_slash [u "xl"; u "_rels"]).
    apply parse_sub; [done|..].
    + repeat (apply Forall_cons; split; [by apply slash_free_lit|]).
      by apply Forall_nil.
    + repeat (apply Forall_cons; split; [by vm_compute|]). by apply Forall_nil.
  - change (lit "/xl/worksheets")
      with (slash :: join_slash [u "xl"; u "worksheets"]).
    apply parse_sub; [done|..].
    + repeat (apply Forall_cons; split; [by apply slash_free_lit|]).
      by apply Forall_nil.
    + repeat (apply Forall_cons; split; [by vm_compute|]). by apply Forall_nil.
Qed.

Lemma keeps_save w : keeps (untouched_outside (staging w) (target w)) (save w).
Proof.
  unfold save. cbv zeta.
  destruct (parse_dirs (filename w ++ lit "_temp")) as (E2 & E3 & E4 & E5).
  fold (staging w) in E2, E3, E4, E5.
  apply keeps_bind; [apply _|by apply keeps_makedirs|intros _].
  apply keeps_bind; [apply _|apply keeps_makedirs; rewrite E2; apply prefix_app_same|intros _].
  apply keeps_bind; [apply _|apply keeps_makedirs; rewrite E3; apply prefix_app_same|intros _].
  apply keeps_bind; [apply _|apply keeps_makedirs; rewrite E4; apply prefix_app_same|intros _].
  apply keeps_bind; [apply _|apply keeps_makedirs; rewrite E5; apply prefix_app_same|intros _].
  apply keeps_bind; [apply _| |intros _].
  { apply keeps_write_text. rewrite parse_content_types. apply prefix_app_same. }
  apply keeps_bind; [apply _| |intros _].
  { apply keeps_write_text. rewrite parse_main_rels. apply prefix_app_same. }
  apply keeps_bind; [apply _| |intros _].
  { apply keeps_write_text. rewrite parse_workbook. apply prefix_app_same. }
  apply keeps_bind; [apply _| |intros _].
  { apply keeps_write_text. rewrite parse_workbook_rels. apply prefix_app_same. }
  apply keeps_bind; [apply _| |intros _].
  { apply keeps_io_for; [apply _|]. intros [i sh]. unfold _create_worksheet.
    apply keeps_bind; [apply _|apply keeps_lift, _|intros doc].
    apply keeps_write_text. unfold fmt. cbn [py_str].
    rewrite parse_sheet_part. apply prefix_app_same. }
  apply keeps_bind_result; [apply _|apply keeps_create; by left|].
  intros zf σ0 σ1 [-> _]%create_ok.
  apply keeps_bind; [apply _|apply keeps_get_fs, _|intros σ2].
  apply keeps_bind; [apply _| |intros _].
  { apply keeps_io_for; [apply _|]. intros [rel d]. apply keeps_zip_write. }
  by apply keeps_rmtree.
Qed.



(** ** Documents that can be written *)


















(** ** The archive, entry by entry *)

Lemma sheet_parts_entries i docs :
  entry_of <$> (as_file <$> sheet_parts i docs)
  = imap (λ k d, (sheet_name (i + Z.of_nat k), Text d)) docs.
Proof.
  revert i. induction docs as [|d docs IH]; intros i; [done|].
  rewrite sheet_parts_cons, !fmap_cons, IH, imap_cons.
  cbn [as_file entry_of]. rewrite sheet_name_join.
  f_equal; [by rewrite Z.add_0_r|].
  apply imap_ext. intros k d' _. cbn [compose]. do 2 f_equal. lia.
Qed.

Lemma worksheet_docs w shs docs :
  Forall2 (λ sh doc, worksheet_xml w sh = Ok doc) shs docs →
  docs = worksheet_doc <$> shs.
Proof.
  induction 1 as [|sh doc shs docs Hdoc _ IH]; [done|].
  rewrite fmap_cons, <- IH. f_equal.
  rewrite worksheet_xml_eq in Hdoc.
  destruct (fits (headers sh) && forallb fits (rows sh)); [|done].
  by injection Hdoc.
Qed.

Lemma save_archive_expected w σ σ' :
  no_file_under (staging w) σ →
  save w σ = (σ', Ok ()) →
  ∃ es, archive_of w σ' = Some es ∧ es ≡ₚ expected_entries w.
Proof.
  intros Hnone
    (σd & docs & es & Hfiles & Hdocs & Hes & Hgone & fl & -> & Hnd & Hfl)%save_archive.
  exists (entry_of <$> fl). split; [done|].
  assert (fl ≡ₚ as_file <$> parts docs) as ->.
  { apply NoDup_Permutation; [done|apply NoDup_as_file_parts|].
    intros [rel d]. rewrite Hfl. by apply (staged_files w σ). }
  unfold parts, expected_entries, sheet_entries.
  rewrite !fmap_app, sheet_parts_entries, (worksheet_docs _ _ _ Hdocs).
  rewrite imap_fmap. done.
Qed.

(** X4.  After a successful [save] with no file under the staging path
    beforehand, the archive holds the four descriptor parts and, for the
    sheet at position [k] (from 0), the entry [xl/worksheets/sheet(k+1).xml]
    with the document of that sheet, each once and nothing else, and
    nothing is left at or under the staging path.  The archive is thus a
    function of the workbook alone, up to the order of its entries. *)
Theorem archive_contents w σ σ' :
  no_file_under (staging w) σ →
  save w σ = (σ', Ok ()) →
  no_entry_under (staging w) σ'
  ∧ ∃ es, archive_of w σ' = Some es ∧ es ≡ₚ expected_entries w.
Proof.
  intros Hnone Hs. split.
  - by eapply save_ok_removes_staging.
  - by eapply save_archive_expected.
Qed.

Lemma archive_contents_witness :
  let w := data_sheet_writer (u "out.xlsx") in
  ∃ es, archive_of w (save w ∅).1 = Some es ∧ es ≡ₚ expected_entries w.
Proof.
  intros w.
  assert (no_file_under (staging w) ∅) as Hnone
    by (intros p d _; rewrite lookup_empty; discriminate).
  assert (save w ∅ = ((save w ∅).1, Ok ())) as Hs by (vm_compute; reflexivity).
  exact (proj2 (archive_contents w ∅ _ Hnone Hs)).
Defined.

(** ** Saving again *)

Lemma write_text_ok_encodable name content σ σ' :
  write_text name content σ = (σ', Ok ()) → encodable content.
Proof.
  unfold write_text, encodable. intros (σ1 & p & _ & H)%bind_ok.
  by destruct (existsb surrogate content).
Qed.

Lemma sheets_loop_encodable w td shs (i : Z) σ σ' :
  io_for (enumerate_from i shs)
    (λ '(i, sheet), _create_worksheet w td (i + 1) sheet) σ = (σ', Ok ()) →
  Forall (λ sh, ∃ doc, worksheet_xml w sh = Ok doc ∧ encodable doc) shs.
Proof.
  revert i σ. induction shs as [|sh shs IH]; intros i σ; [constructor|].
  cbn [io_for enumerate_from].
  intros (σ1 & [] & Hsh & Hrest)%bind_ok.
  unfold _create_worksheet in Hsh.
  apply bind_ok in Hsh as (σ0 & doc & [Hdoc ->]%lift_ok & Hw%write_text_ok_encodable).
  constructor; [by exists doc|by eapply IH].
Qed.

Lemma save_ok_encodable w σ σ' :
  save w σ = (σ', Ok ()) →
  Forall (λ sh, ∃ doc, worksheet_xml w sh = Ok doc ∧ encodable doc) (sheets w).
Proof.
  unfold save.
  intros (σ1 & [] & H1 & H)%bind_ok.
  apply bind_ok in H as (σ2 & [] & H2 & H).
  apply bind_ok in H as (σ3 & [] & H3 & H).
  apply bind_ok in H as (σ4 & [] & H4 & H).
  apply bind_ok in H as (σ5 & [] & H5 & H).
  apply bind_ok in H as (σ6 & [] & H6 & H).
  apply bind_ok in H as (σ7 & [] & H7 & H).
  apply bind_ok in H as (σ8 & [] & H8 & H).
  apply bind_ok in H as (σ9 & [] & H9 & H).
  apply bind_ok in H as (σ10 & [] & H10 & H).
  by eapply sheets_loop_encodable.
Qed.

Lemma archive_of_Some w σ es :
  archive_of w σ = Some es → σ !! target w = Some (File (Zip es)).
Proof.
  unfold archive_of. destruct (σ !! target w) as [[|[?|?]]|]; naive_solver.
Qed.

Lemma plain_name_frame w σ σ' q :
  Forall (λ c, c ≠ slash) (filename w) →
  untouched_outside (staging w) (target w) σ σ' →
  ¬ staging w `prefix_of` q → q ≠ target w → σ' !! q = σ !! q.
Proof.
  intros Hslash Hout Hq Ht.
  destruct (Hout q Hq Ht) as [->|(_ & _ & Hp & Hne)]; [done|].
  exfalso. rewrite staging_plain_name in Hp, Hq by done.
  destruct Hp as [k Hk]. destruct q as [|q0 q]; [done|].
  injection Hk as <- Hk. symmetry in Hk. apply app_eq_nil in Hk as [-> _].
  by apply Hq.
Qed.




(** X5.  After a successful [save] to a plain file name, calling [save]
    again succeeds, changes nothing but the target file, and leaves in it
    exactly the entries of the workbook. *)
Theorem save_again w σ σ1 :
  Forall (λ c, c ≠ slash) (filename w) → plain (filename w) →
  save w σ = (σ1, Ok ()) →
  ∃ σ2, save w σ1 = (σ2, Ok ())
        ∧ (∀ q, q ≠ target w → σ2 !! q = σ1 !! q)
        ∧ ∃ es, archive_of w σ2 = Some es ∧ es ≡ₚ expected_entries w.
Proof.
  intros Hslash Hplain Hs1.
  pose proof (save_ok_removes_staging _ _ _ Hs1) as Hgone1.
  pose proof (save_ok_encodable _ _ _ Hs1) as Hdocs.
  apply save_archive in Hs1 as (_ & _ & es1 & _ & _ & Hes1%archive_of_Some & _).
  destruct (save_succeeds w σ1) as [σ2 Hs2]; [done|done|done| |done|].
  { rewrite Hes1. discriminate. }
  exists σ2. split; [done|].
  pose proof (save_ok_removes_staging _ _ _ Hs2) as Hgone2.
  split.
  - intros q Hq.
    destruct (decide (staging w `prefix_of` q)) as [Hin|Hout].
    { by rewrite Hgone1, Hgone2. }
    by apply (plain_name_frame w); [..|eapply keeps_save| |].
  - apply (save_archive_expected w σ1 σ2); [|done].
    intros p d Hp. by rewrite Hgone1.
Qed.

Lemma save_again_witness :
  let w := data_sheet_writer (u "out.xlsx") in
  ∃ σ2, save w (save w stale_staging).1 = (σ2, Ok ())
        ∧ (∀ q, q ≠ target w → σ2 !! q = (save w stale_staging).1 !! q)
        ∧ ∃ es, archive_of w σ2 = Some es ∧ es ≡ₚ expected_entries w.
Proof.
  intros w. apply (save_again w stale_staging).
  - apply slash_free_lit. vm_compute. reflexivity.
  - vm_compute. split_and!; discriminate.
  - vm_compute. reflexivity.
Defined.

(** ** Targets that cannot be archives *)

Lemma staging_target_basename w :
  ∃ stack,
    staging w = stack ++ [basename (filename w) ++ lit "_temp"]
    ∧ target w = norm_step stack (basename (filename w)).
Proof.
  unfold staging, target, parse, basename.
  destruct (split_slash_app_plain (filename w) (lit "_temp"))
    as (init & lastc & -> & ->).
  { apply slash_free_lit. by vm_compute. }
  exists (foldl norm_step [] init).
  rewrite last_snoc, !foldl_app. cbn [foldl default]. split; [|done].
  apply norm_step_plain.
  split_and!; intros H%(f_equal length); rewrite length_app in H;
    cbn in H; lia.
Qed.

(** [mkdirs] never changes an entry that exists. *)
Lemma mkdirs_mono done todo σ σ' r q n :
  mkdirs done todo σ = (σ', r) → σ !! q = Some n → σ' !! q = Some n.
Proof.
  revert done σ. induction todo as [|c todo IH]; intros done σ.
  - by intros [= <- _].
  - cbn [mkdirs]. destruct (σ !! (done ++ [c])) as [[|d]|] eqn:E.
    + apply IH.
    + by intros [= <- _].
    + intros H Hq. eapply IH; [exact H|].
      rewrite lookup_insert_ne; [done|]. intros <-. congruence.
Qed.

Lemma mkdirs_ok_dirs done todo σ σ' k :
  mkdirs done todo σ = (σ', Ok ()) →
  (0 < k ≤ length todo)%nat →
  σ' !! (done ++ take k todo) = Some Dir.
Proof.
  revert done σ k. induction todo as [|c todo IH]; intros done σ k.
  - cbn [length]. lia.
  - cbn [mkdirs length]. intros H Hk.
    destruct k as [|k]; [lia|]. cbn [take].
    replace (done ++ c :: take k todo) with ((done ++ [c]) ++ take k todo)
      by by rewrite <- app_assoc.
    destruct (σ !! (done ++ [c])) as [[|d]|] eqn:E; [| |].
    + destruct k as [|k].
      * rewrite take_0, app_nil_r. by eapply mkdirs_mono.
      * eapply IH; [exact H|lia].
    + by destruct todo.
    + destruct k as [|k].
      * rewrite take_0, app_nil_r. eapply mkdirs_mono; [exact H|].
        apply lookup_insert_eq.
      * eapply IH; [exact H|lia].
Qed.

Lemma makedirs_ok_dirs name σ σ' q :
  makedirs name σ = (σ', Ok ()) →
  q `prefix_of` parse name → q ≠ [] → σ' !! q = Some Dir.
Proof.
  unfold makedirs. destruct name as [|c name]; [done|].
  intros H [k Hk] Hq.
  rewrite Hk in H. rewrite <- (take_app_length q k).
  apply (mkdirs_ok_dirs [] _ σ); [done|].
  rewrite length_app. destruct q; [done|]. cbn [length]. lia.
Qed.

#[local] Instance stays_dir_preorder q : PreOrder (stays_dir q).
Proof.
  split; [intros σ H; exact H|].
  intros σ1 σ2 σ3 H12 H23 H. by apply H23, H12.
Qed.

Lemma keeps_dir_makedirs q name : keeps (stays_dir q) (makedirs name).
Proof.
  intros σ σ' r. unfold makedirs. destruct name; [by intros [= <- _]|].
  intros H Hq. by eapply mkdirs_mono.
Qed.

Lemma keeps_dir_write_text q name content :
  parse name ≠ q → keeps (stays_dir q) (write_text name content).
Proof.
  intros Hne σ σ' r. unfold write_text, mbind, io_bind.
  destruct (create name (Text []) σ) as [σ1 [p|e]] eqn:E.
  - apply create_ok in E as [-> ->].
    destruct (existsb surrogate content); intros [= <- _] Hq.
    + by rewrite lookup_insert_ne.
    + by rewrite !lookup_insert_ne.
  - intros [= <- _] Hq.
    unfold create in E. destruct name as [|c name]; [by injection E as <-|].
    destruct (parse (c :: name)) as [|p0 p]; [by injection E as <-|].
    destruct (match removelast (p0 :: p) with
              | [] => Some Dir
              | _ :: _ => σ !! removelast (p0 :: p)
              end) as [[|?]|]; try by injection E as <-.
    destruct (σ !! (p0 :: p)) as [[|?]|]; try done; by injection E as <-.
Qed.

Lemma keeps_dir_create_worksheet q w td k sh :
  (∀ k, parse td ++ sheet_part_path k ≠ q) →
  keeps (stays_dir q) (_create_worksheet w td k sh).
Proof.
  intros Hne. unfold _create_worksheet.
  apply keeps_bind; [apply _|apply keeps_lift, _|intros doc].
  apply keeps_dir_write_text. unfold fmt. cbn [py_str].
  rewrite parse_sheet_part. apply Hne.
Qed.

Lemma removelast_prefix {A} (l : list A) : removelast l `prefix_of` l.
Proof.
  destruct l as [|x l _] using rev_ind; [done|].
  rewrite removelast_last. by exists [x].
Qed.

Lemma create_on_dir name d σ σ' p :
  parse name = [] ∨ σ !! parse name = Some Dir →
  create name d σ ≠ (σ', Ok p).
Proof.
  intros Hdir. unfold create. destruct name as [|c name]; [done|].
  destruct (parse (c :: name)) as [|p0 q] eqn:E; [done|].
  destruct Hdir as [?|Hdir]; [done|].
  destruct (match removelast (p0 :: q) with
            | [] => Some Dir
            | _ :: _ => σ !! removelast (p0 :: q)
            end) as [[|?]|]; try done.
  by rewrite Hdir.
Qed.

(** X6.  [save] never completes when the file name has no last component
    of its own: an empty name, a name ending in a slash, or one whose last
    component is [.] or [..].  Such a name denotes a directory, which the
    staging step itself may have created, and the archive cannot be opened
    over a directory. *)
Theorem save_needs_a_file_name w σ σ' :
  ¬ plain (basename (filename w)) → save w σ ≠ (σ', Ok ()).
Proof.
  intros Hnp Hs.
  destruct (staging_target_basename w) as (stack & Est & Etg).
  assert (target w `prefix_of` stack) as Hpre.
  { rewrite Etg. unfold norm_step. repeat case_bool_decide.
    - done.
    - apply removelast_prefix.
    - exfalso. apply Hnp. unfold plain. naive_solver. }
  assert (∀ rel, staging w ++ rel ≠ target w) as Hne.
  { intros rel Heq. apply prefix_length in Hpre.
    rewrite <- Heq, Est, !length_app in Hpre. cbn [length] in Hpre. lia. }
  unfold save in Hs. cbv zeta in Hs. fold (staging w) in Hs.
  destruct (parse_dirs (filename w ++ lit "_temp")) as (E2 & E3 & E4 & E5).
  apply bind_ok in Hs as (σ1 & [] & H1 & H).
  apply bind_ok in H as (σ2 & [] & H2 & H).
  apply bind_ok in H as (σ3 & [] & H3 & H).
  apply bind_ok in H as (σ4 & [] & H4 & H).
  apply bind_ok in H as (σ5 & [] & H5 & H).
  apply bind_ok in H as (σ6 & [] & H6 & H).
  apply bind_ok in H as (σ7 & [] & H7 & H).
  apply bind_ok in H as (σ8 & [] & H8 & H).
  apply bind_ok in H as (σ9 & [] & H9 & H).
  apply bind_ok in H as (σ10 & [] & H10 & H).
  apply bind_ok in H as (σ11 & zf & Hcreate & _).
  revert Hcreate. apply create_on_dir. fold (target w).
  destruct (decide (target w = [])) as [?|Hnil]; [by left|right].
  assert (σ1 !! target w = Some Dir) as Hdir.
  { eapply makedirs_ok_dirs; [exact H1| |done].
    fold (staging w). rewrite Est. by apply prefix_app_r. }
  apply (keeps_dir_makedirs _ _ _ _ _ H2) in Hdir.
  apply (keeps_dir_makedirs _ _ _ _ _ H3) in Hdir.
  apply (keeps_dir_makedirs _ _ _ _ _ H4) in Hdir.
  apply (keeps_dir_makedirs _ _ _ _ _ H5) in Hdir.
  apply (keeps_dir_write_text (target w) _ _) in H6;
    [|rewrite parse_content_types; apply Hne].
  apply (keeps_dir_write_text (target w) _ _) in H7;
    [|rewrite parse_main_rels; apply Hne].
  apply (keeps_dir_write_text (target w) _ _) in H8;
    [|rewrite parse_workbook; apply Hne].
  apply (keeps_dir_write_text (target w) _ _) in H9;
    [|rewrite parse_workbook_rels; apply Hne].
  apply (keeps_io_for (stays_dir (target w))) in H10.
  2:{ intros [i sh]. apply keeps_dir_create_worksheet. intros k. apply Hne. }
  by apply H10, H9, H8, H7, H6.
Qed.

Lemma save_needs_a_file_name_witness :
  save (data_sheet_writer (u "out/")) ∅
  ≠ ((save (data_sheet_writer (u "out/")) ∅).1, Ok ()).
Proof.
  apply save_needs_a_file_name.
  vm_compute. intros (H & _). by apply H.
Defined.

(** ** Text cannot add markup *)

Lemma occurs1_app c s t :
  occurs [c] (s ++ t) = (occurs [c] s + occurs [c] t)%nat.
Proof.
  induction s as [|x s IH]; [done|].
  cbn [app occurs starts_with]. rewrite IH. lia.
Qed.

Lemma occurs1_none c s : Forall (λ x, x ≠ c) s → occurs [c] s = 0%nat.
Proof.
  induction 1 as [|x s Hx _ IH]; [done|].
  cbn [occurs starts_with]. rewrite IH.
  by destruct (N.eqb_spec x c).
Qed.

Lemma sum_list_cons (x : nat) (l : list nat) :
  sum_list (x :: l) = (x + sum_list l)%nat.
Proof. reflexivity. Qed.

Lemma occurs1_concat c ss :
  occurs [c] (concat ss) = sum_list (occurs [c] <$> ss).
Proof.
  induction ss as [|s ss IH]; [done|].
  cbn [concat]. by rewrite occurs1_app, IH, fmap_cons, sum_list_cons.
Qed.

Lemma occurs1_cell_ref c j n :
  (c = 60 ∨ c = 62)%N → occurs [c] (cell_ref j n) = 0%nat.
Proof.
  intros Hc. apply occurs1_none. unfold cell_ref. constructor.
  - destruct Hc as [-> | ->]; lia.
  - apply int_str_plain. by destruct Hc as [-> | ->].
Qed.

Lemma occurs1_text_cell c j n text :
  (c = 60 ∨ c = 62)%N → occurs [c] (text_cell (cell_ref j n) text) = 6%nat.
Proof.
  intros Hc. unfold text_cell.
  rewrite !occurs1_app, occurs1_cell_ref by done.
  rewrite (occurs1_none c (text ≫= esc_char)).
  - by destruct Hc as [-> | ->].
  - apply escaped_no_markup. destruct Hc as [-> | ->];
      by apply (bool_decide_unpack _); vm_compute.
Qed.

Lemma occurs1_num_cell c j n v :
  (c = 60 ∨ c = 62)%N → isinstance v [Cint; Cfloat] = true →
  occurs [c] (num_cell (cell_ref j n) (py_str v)) = 4%nat.
Proof.
  intros Hc Hv. unfold num_cell.
  rewrite !occurs1_app, occurs1_cell_ref by done.
  rewrite (occurs1_none c (py_str v)).
  - by destruct Hc as [-> | ->].
  - apply py_str_numeric_plain; [done|]. by destruct Hc as [-> | ->].
Qed.

Lemma occurs1_cell_of c j n v :
  (c = 60 ∨ c = 62)%N → occurs [c] (cell_of (cell_ref j n) v) = cell_tags v.
Proof.
  intros Hc.
  destruct v as [s|z|x|b|]; cbn [cell_of];
    [apply occurs1_text_cell|apply (occurs1_num_cell c j n (PInt z))
    |apply (occurs1_num_cell c j n (PFloat x))
    |apply (occurs1_num_cell c j n (PBool b))
    |apply occurs1_text_cell]; done.
Qed.

Lemma sum_list_imap_const {A} (f : nat → A → nat) (g : A → nat) (l : list A) :
  (∀ i x, f i x = g x) → sum_list (imap f l) = sum_list (g <$> l).
Proof.
  intros H. revert f H. induction l as [|x l IH]; intros f H; [done|].
  rewrite imap_cons, fmap_cons, !sum_list_cons.
  rewrite H. f_equal. apply IH. intros i y. apply H.
Qed.

Lemma occurs1_row_cells c n row :
  (c = 60 ∨ c = 62)%N →
  occurs [c] (concat (row_cells n row)) = sum_list (cell_tags <$> row).
Proof.
  intros Hc. rewrite occurs1_concat. unfold row_cells.
  rewrite fmap_imap. apply sum_list_imap_const.
  intros j v. cbn [compose]. by apply occurs1_cell_of.
Qed.

Lemma occurs1_header_cells c hs :
  (c = 60 ∨ c = 62)%N →
  occurs [c] (concat (header_cells hs)) = (6 * length hs)%nat.
Proof.
  intros Hc. rewrite occurs1_concat. unfold header_cells.
  rewrite fmap_imap, (sum_list_imap_const _ (λ _, 6%nat)).
  - induction hs as [|h hs IH]; [done|].
    rewrite fmap_cons, sum_list_cons, IH. cbn [length]. lia.
  - intros j h. cbn [compose]. by apply occurs1_text_cell.
Qed.

Lemma occurs1_row_elem c n cells :
  (c = 60 ∨ c = 62)%N →
  occurs [c] (row_elem n cells) = (2 + occurs [c] (concat cells))%nat.
Proof.
  intros Hc. unfold row_elem. rewrite !occurs1_app.
  rewrite (occurs1_none c (int_str n))
    by (apply int_str_plain; by destruct Hc as [-> | ->]).
  destruct Hc as [-> | ->];
    repeat match goal with
           | |- context [occurs ?p (lit ?s)] =>
               let k := eval vm_compute in (occurs p (lit s)) in
               change (occurs p (lit s)) with k
           end; lia.
Qed.

Lemma occurs1_sheet c sh :
  (c = 60 ∨ c = 62)%N → occurs [c] (worksheet_doc sh) = sheet_tags sh.
Proof.
  intros Hc. unfold worksheet_doc, sheet_tags, sheet_rows.
  rewrite !occurs1_app, occurs1_concat, fmap_cons, sum_list_cons.
  rewrite occurs1_row_elem, occurs1_header_cells by done.
  rewrite fmap_imap, (sum_list_imap_const _
    (λ row, (2 + sum_list (cell_tags <$> row))%nat)).
  - destruct Hc as [-> | ->].
    + change (occurs [60%N] worksheet_head) with 3%nat.
      change (occurs [60%N] worksheet_tail) with 2%nat. lia.
    + change (occurs [62%N] worksheet_head) with 3%nat.
      change (occurs [62%N] worksheet_tail) with 2%nat. lia.
  - intros i row. cbn [compose].
    by rewrite occurs1_row_elem, occurs1_row_cells.
Qed.

(** X7.  In every document the builder returns, the number of [<] equals
    the number of [>], and both are fixed by the shape of the sheet: five
    tags for the head and tail, two per row, six per header and text cell,
    four per numeric cell.  No header or cell text adds a tag. *)
Theorem text_adds_no_markup w sh doc :
  worksheet_xml w sh = Ok doc →
  occurs [60%N] doc = sheet_tags sh ∧ occurs [62%N] doc = sheet_tags sh.
Proof.
  rewrite worksheet_xml_eq.
  destruct (fits (headers sh) && forallb fits (rows sh)); [|done].
  intros [= <-]. split; apply occurs1_sheet; auto.
Qed.

Lemma text_adds_no_markup_witness :
  let sh := mk_sheet PNone [PStr (lit "<b>`A`</b>")]
              [[PStr (lit "</row><row>"); PInt 7]] in
  occurs [60%N] (worksheet_doc sh) = 25%nat
  ∧ occurs [62%N] (worksheet_doc sh) = 25%nat.
Proof.
  intros sh.
  apply (text_adds_no_markup (__init__ (u "out.xlsx")) sh).
  vm_compute. reflexivity.
Defined.

(** ** The sample generator *)





















